(** * osPID engine (PID controller with relay auto-tuner), shallow embedding

    Embedding of the engine class [PID] of the osPID firmware
    (osPID_Engine.h and its implementation), together with the older
    [PID_v1] controller it replaced and the set-point profile runner that
    shares the engine's source file.

    Representation choices:
    - [double] values are rationals [Q] (exact arithmetic, no rounding);
    - [ospDecimalValue<D>] is its integer magnitude [Z] (value / 10^D);
    - [unsigned long] millisecond times are [Z] taken modulo 2^32;
    - [byte] and [int] fields are [Z] with their wrap-around written out
      where the code can overflow them;
    - the fixed-size arrays of the tuner are lists updated by index;
    - the variables the engine reaches through [myInput], [myOutput] and
      [mySetpoint] (the globals [lastGoodInput], [output], [activeSetPoint]),
      and the globals [manualOutput], [PGain], [IGain], [DGain] it writes,
      are fields of the state record, so that the aliasing is explicit. *)

From Stdlib Require Import ZArith QArith Qround Qabs List Lia.
From coqutil Require Import Datatypes.RecordSetters.
Import ListNotations DoubleBraceUpdate.

Open Scope Z_scope.

(** ** Machine arithmetic *)

Definition ULONG_MOD : Z := 2 ^ 32.

(** [unsigned long] subtraction *)
Definition usub (a b : Z) : Z := (a - b) mod ULONG_MOD.

(** 16-bit AVR [int] arithmetic *)
Definition wrap16 (x : Z) : Z := (x + 2 ^ 15) mod 2 ^ 16 - 2 ^ 15.

(** conversion of an [unsigned long] to a 32-bit [long] *)
Definition wrap32 (x : Z) : Z := (x + 2 ^ 31) mod 2 ^ 32 - 2 ^ 31.

(** conversion to [byte] *)
Definition to_byte (x : Z) : Z := x mod 256.

Definition Qltb (x y : Q) : bool := negb (Qle_bool y x).
Definition Qleb (x y : Q) : bool := Qle_bool x y.

(** the [abs] macro of the Arduino core *)
Definition dabs (x : Q) : Q := if Qltb 0 x then x else (- x)%Q.

(** ** Fixed-point decimals (ospDecimalValue.h is not part of the sources) *)

(** Modelled from the spec: [makeDecimal<D>(double)] of ospDecimalValue.h,
    the lossy conversion of a native floating value into a FixedDecimal
    with [D] decimal places; rounding to nearest, halves away from zero. *)
Definition makeDecimal (D : Z) (x : Q) : Z :=
  let y := (x * inject_Z (10 ^ D))%Q in
  if Qle_bool 0 y then Qfloor (y + (1 # 2)) else - Qfloor (- y + (1 # 2)).

(** Modelled from the spec: [double(ospDecimalValue<D>)], the exact value
    [z / 10^D]. *)
Definition toDouble (D : Z) (z : Z) : Q := Qmake z (Z.to_pos (10 ^ D)).

(** Modelled from the spec: [rescale<3>()] applied to the product of two
    [ospDecimalValue<3>], a value with 6 decimal places, rounded as
    [makeDecimal]. *)
Definition rescale6to3 (z : Z) : Z := makeDecimal 3 (toDouble 6 z).

(** ** Arrays *)

(** [a[i] = v] on a C array; indices stay in range in the code below *)
Fixpoint upd {A} (l : list A) (i : nat) (v : A) : list A :=
  match l, i with
  | [], _ => []
  | _ :: t, O => v :: t
  | x :: t, S j => x :: upd t j v
  end.

Definition get {A} (d : A) (l : list A) (i : nat) : A := nth i l d.

(** [for (i = k; i > 0; i--) a[i] = a[i - 1];] *)
Fixpoint shift_down {A} (d : A) (k : nat) (l : list A) : list A :=
  match k with
  | O => l
  | S j => shift_down d j (upd l k (get d l j))
  end.

(** ** Constants of osPID_Engine.h *)

Definition DEFAULT_LOOP_SAMPLE_TIME : Z := 1000.
Definition AUTOTUNE_PEAK_AMPLITUDE_TOLERANCE : Q := 0.05.
Definition AUTOTUNE_MAX_WAIT : Z := 5 * 60 * 1000.

Definition MANUAL : Z := 0.
Definition AUTOMATIC : Z := 1.
Definition DIRECT : Z := 0.
Definition REVERSE : Z := 1.

Definition ZIEGLER_NICHOLS_PI : Z := 0.
Definition ZIEGLER_NICHOLS_PID : Z := 1.
Definition TYREUS_LUYBEN_PI : Z := 2.
Definition TYREUS_LUYBEN_PID : Z := 3.
Definition CIANCONE_MARLIN_PI : Z := 4.
Definition CIANCONE_MARLIN_PID : Z := 5.
Definition PESSEN_INTEGRAL_PID : Z := 6.
Definition SOME_OVERSHOOT_PID : Z := 7.
Definition NO_OVERSHOOT_PID : Z := 8.
Definition AMIGOF_PI : Z := 9.

Definition NOT_A_PEAK : Z := 0.
Definition MINIMUM : Z := 1.
Definition MAXIMUM : Z := 2.

Definition AUTOTUNE_OFF : Z := 0.
Definition AUTOTUNE_STEADY_STATE_AT_BASELINE : Z := 1.
Definition AUTOTUNE_STEADY_STATE_AFTER_STEP_UP : Z := 2.
Definition AUTOTUNE_RELAY_STEP_UP : Z := 4.
Definition AUTOTUNE_RELAY_STEP_DOWN : Z := 8.
Definition AUTOTUNE_CONVERGED : Z := 16.
Definition AUTOTUNE_FAILED : Z := 128.

Definition AUTOTUNE_KP_DIVISOR : nat := 0.
Definition AUTOTUNE_TI_DIVISOR : nat := 1.
Definition AUTOTUNE_TD_DIVISOR : nat := 2.

Definition CONST_PI : Q := 3.14159265358979323846.
Definition CONST_PI_DIV_2 : Q := 1.57079632679489661923.
Definition CONST_SQRT2_DIV_2 : Q := 0.70710678118654752440.

(** ** The tuning-rule table [tuningRule] *)

Definition Tuning := list Z.

Definition tuningRule : list Tuning :=
  [ [ 44; 24;   0];   (* ZIEGLER_NICHOLS_PI *)
    [ 34; 40; 160];   (* ZIEGLER_NICHOLS_PID *)
    [ 64;  9;   0];   (* TYREUS_LUYBEN_PI *)
    [ 44;  9; 126];   (* TYREUS_LUYBEN_PID *)
    [ 66; 80;   0];   (* CIANCONE_MARLIN_PI *)
    [ 66; 88; 162];   (* CIANCONE_MARLIN_PID *)
    [ 28; 50; 133];   (* PESSEN_INTEGRAL_PID *)
    [ 60; 40;  60];   (* SOME_OVERSHOOT_PID *)
    [100; 40;  60] ]. (* NO_OVERSHOOT_PID *)

Definition rule (controlType : Z) : Tuning :=
  nth (Z.to_nat controlType) tuningRule [0; 0; 0].

(** [Tuning::PI_controller] *)
Definition PI_controller (t : Tuning) : bool := get 0 t 2 =? 0.

(** [Tuning::divisor] *)
Definition divisor (t : Tuning) (index : nat) : Q :=
  (inject_Z (get 0%Z t index) * 0.05)%Q.

(** ** The state of the engine *)

Record PID := mkPID {
  (* variables linked through myInput, myOutput, mySetpoint *)
  myInput : Q;                  (* lastGoodInput *)
  myOutput : Q;                 (* output *)
  mySetpoint : Q;               (* activeSetPoint *)
  (* globals of the firmware written by the engine *)
  manualOutput : Z;             (* ospDecimalValue<1> *)
  PGain : Z;                    (* ospDecimalValue<3> *)
  IGain : Z;
  DGain : Z;
  (* controller *)
  dispKp : Z;                   (* ospDecimalValue<3> *)
  dispKi : Z;
  dispKd : Z;
  kp : Q;
  ki : Q;
  kd : Q;
  controllerDirection : Z;      (* byte *)
  isTuning : bool;
  mode : Z;                     (* byte *)
  lastTime : Z;                 (* unsigned long *)
  iTerm : Q;
  lastInput : Q;
  sampleTime : Z;               (* int *)
  outMin : Q;
  outMax : Q;
  (* auto tuner *)
  ATuneModeRemember : Z;        (* byte *)
  manualOutputRemember : Z;     (* ospDecimalValue<1> *)
  oStep : Q;
  noiseBand : Q;
  nLookBack : Z;                (* byte *)
  controlType : Z;              (* byte *)
  state : Z;                    (* byte *)
  setpoint : Q;
  outputStart : Q;
  workingNoiseBand : Q;
  workingOstep : Q;
  peakType : Z;                 (* byte *)
  lastPeakTime : list Z;        (* unsigned long[5] *)
  lastPeaks : list Q;           (* double[5] *)
  peakCount : Z;                (* byte *)
  inputOffset : Q;
  inputOffsetChange : Z;        (* ospDecimalValue<3> *)
  lastInputs : list Z;          (* ospDecimalValue<3>[101] *)
  inputCount : Z;               (* byte *)
  Kp : Q;
  Ti : Q;
  Td : Q;
  newWorkingNoiseBand : Q;
  K_process : Q
}.

(** ** Controller methods *)

(** [PID::limit] *)
Definition limit (s : PID) (var : Q) : Q :=
  if Qltb (outMax s) var then outMax s
  else if Qltb var (outMin s) then outMin s
  else var.

(** [setOutputToManualOutput] of the firmware *)
Definition setOutputToManualOutput (s : PID) : PID :=
  s {{ myOutput := toDouble 1 (manualOutput s) }}.

(** [PID::setTunings] *)
Definition setTunings (s : PID) (Kp Ki Kd : Z) : PID :=
  if (Kp <? 0) || (Ki <? 0) || (Kd <? 0) then s
  else
    let sampleTimeInSec := (inject_Z (sampleTime s) * 0.001)%Q in
    let kp' := toDouble 3 Kp in
    let ki' := (toDouble 3 Ki * sampleTimeInSec)%Q in
    let kd' := (toDouble 3 Kd / sampleTimeInSec)%Q in
    let s := s {{ dispKp := Kp; dispKi := Ki; dispKd := Kd }} in
    if controllerDirection s =? REVERSE
    then s {{ kp := (0 - kp')%Q; ki := (0 - ki')%Q; kd := (0 - kd')%Q }}
    else s {{ kp := kp'; ki := ki'; kd := kd' }}.

(** [PID::setSampleTime] *)
Definition setSampleTime (s : PID) (newSampleTime : Z) : PID :=
  if 0 <? newSampleTime then
    let ratio := (inject_Z newSampleTime / inject_Z (sampleTime s))%Q in
    s {{ ki := (ki s * ratio)%Q; kd := (kd s / ratio)%Q;
         sampleTime := newSampleTime }}
  else s.

(** [PID::setOutputLimits] *)
Definition setOutputLimits (s : PID) (Min Max : Q) : PID :=
  if Qleb Max Min then s
  else
    let s := s {{ outMin := Min; outMax := Max }} in
    if mode s =? AUTOMATIC
    then s {{ myOutput := limit s (myOutput s); iTerm := limit s (iTerm s) }}
    else s.

(** [PID::initialize] *)
Definition initialize (s : PID) : PID :=
  let s := s {{ iTerm := myOutput s; lastInput := myInput s }} in
  s {{ iTerm := limit s (iTerm s) }}.

(** [PID::setMode] *)
Definition setMode (s : PID) (newMode : Z) : PID :=
  let s := if negb (newMode =? mode s) then initialize s else s in
  s {{ mode := newMode }}.

(** [PID::setControllerDirection] *)
Definition setControllerDirection (s : PID) (newDirection : Z) : PID :=
  if (mode s =? AUTOMATIC) && negb (newDirection =? controllerDirection s)
  then s {{ kp := (0 - kp s)%Q; ki := (0 - ki s)%Q; kd := (0 - kd s)%Q;
            controllerDirection := newDirection }}
  else s.

(** [PID::PID], the constructor, run on the storage [raw] of the object
    and at time [millis] *)
Definition PID_new (raw : PID) (millis : Z) (Kp Ki Kd : Z)
    (ControllerDirection : Z) : PID :=
  let s := raw {{ sampleTime := DEFAULT_LOOP_SAMPLE_TIME }} in
  let s := setTunings s Kp Ki Kd in
  let s := s {{ controllerDirection := ControllerDirection }} in
  s {{ lastTime := usub millis (sampleTime s); isTuning := false }}.

(** ** Auto-tune parameter setters *)

Definition setAtuneOutputStep (s : PID) (newStep : Z) : PID :=
  s {{ oStep := toDouble 1 newStep }}.

Definition setAtuneControlType (s : PID) (newType : Z) : PID :=
  s {{ controlType := newType }}.

Definition setAtuneNoiseBand (s : PID) (newBand : Z) : PID :=
  s {{ noiseBand := toDouble 3 newBand }}.

Definition setAtuneLookBackSec (s : PID) (value : Z) : PID :=
  let value := if value <? 1 then 1 else value in
  let n := to_byte (Z.quot (wrap16 (value * 1000)) (sampleTime s)) in
  s {{ nLookBack := if 100 <? n then 100 else n }}.

(** [PID::getAtuneLookBackSec]: [(int) ((double) (nLookBack * sampleTime)
    / 1000.0f)], the product taken in 16-bit [int] *)
Definition getAtuneLookBackSec (s : PID) : Z :=
  Z.quot (wrap16 (nLookBack s * sampleTime s)) 1000.

Definition getAtuneKp (s : PID) : Q := Kp s.
Definition getAtuneKi (s : PID) : Q := (Kp s / Ti s)%Q.
Definition getAtuneKd (s : PID) : Q := (Kp s * Td s)%Q.

(** ** Starting and stopping an auto-tune run *)

(** [PID::startAutoTune] *)
Definition startAutoTune (s : PID) (aTuneMethod aTuneStep aTuneNoise
    aTuneLookBack : Z) : PID :=
  let s := s {{ ATuneModeRemember := mode s;
                manualOutputRemember := manualOutput s }} in
  let st := aTuneStep in
  let out := makeDecimal 1 (myOutput s) in
  let oMin := makeDecimal 1 (outMin s) in
  let oMax := makeDecimal 1 (outMax s) in
  let st := if out - oMin <? st then out - oMin else st in
  let st := if oMax - out <? st then oMax - out else st in
  let s := setAtuneOutputStep s st in
  let s := setAtuneControlType s aTuneMethod in
  let s := setAtuneNoiseBand s aTuneNoise in
  let s := setAtuneLookBackSec s aTuneLookBack in
  s {{ mode := MANUAL; isTuning := true; state := AUTOTUNE_OFF }}.

(** [PID::stopAutoTune] *)
Definition stopAutoTune (s : PID) : PID :=
  let s := s {{ state := AUTOTUNE_OFF; isTuning := false;
                mode := ATuneModeRemember s;
                manualOutput := manualOutputRemember s }} in
  setOutputToManualOutput s.

(** [PID::completeAutoTune]; the final [markSettingsDirty()] only
    schedules an EEPROM write and has no effect on the engine *)
Definition completeAutoTune (s : PID) : PID :=
  let s := s {{ PGain := makeDecimal 3 (getAtuneKp s);
                IGain := makeDecimal 3 (getAtuneKi s);
                DGain := makeDecimal 3 (getAtuneKd s) }} in
  let s := s {{ mode := AUTOMATIC }} in
  let s := if PGain s <? 0
           then s {{ PGain := - PGain s; IGain := - IGain s;
                     DGain := - DGain s;
                     controllerDirection :=
                       if controllerDirection s =? DIRECT then REVERSE
                       else DIRECT }}
           else s in
  let s := setTunings s (PGain s) (IGain s) (DGain s) in
  stopAutoTune s.

(** ** The auto-tuner step [PID::autoTune]

    The step is cut at the places where the C function returns early; a
    stage either returns from [autoTune] ([Ret]) or goes on with the next
    stage ([Go]), handing over the local variables it computed. *)

Inductive flow (A : Type) : Type :=
| Ret (done : bool) (s : PID)
| Go (a : A) (s : PID).
Arguments Ret {A}.
Arguments Go {A}.

Definition bind {A B} (c : flow A) (k : A -> PID -> flow B) : flow B :=
  match c with
  | Ret done s => Ret done s
  | Go a s => k a s
  end.

Notation "'let!' x s := c 'in' k" := (bind c (fun x s => k))
  (at level 200, x binder, s binder, c at level 100, k at level 200).

(** [PID::zero] *)
Definition zero (x : Q) : bool := Qltb x (1 # 10000000000).

Definition is_state_in (s : PID) (mask : Z) : bool :=
  0 <? Z.land (state s) mask.

Section AutoTune.

(** the C library square root, used only by the AMIGOf method *)
Variable sqrt : Q -> Q.

(** [PID::fastArcTan] *)
Definition fastArcTan (x : Q) : Q := (x / (1 + 0.28125 * (x * x)))%Q.

(** [PID::calculatePhaseLag]; a division by zero gives 0 in [Q], where the
    C doubles give an infinity or NaN: for [inducedAmplitude = 0] the C
    code takes the [pi/2] branch (or gets NaN when the noise band is 0 too),
    and for [ratio = 1] it returns NaN; statements about this function
    exclude those inputs. *)
Definition calculatePhaseLag (s : PID) (inducedAmplitude : Q) : Q :=
  let ratio := (2 * workingNoiseBand s / inducedAmplitude)%Q in
  if Qltb 1 ratio then CONST_PI_DIV_2
  else (CONST_PI - fastArcTan (ratio / sqrt (1 - ratio * ratio)))%Q.

(** initialisation of the working variables on the first step *)
Definition at_start (s : PID) : PID :=
  let now := lastTime s in
  if state s =? AUTOTUNE_OFF then
    s {{ peakType := NOT_A_PEAK; inputCount := 0; peakCount := 0;
         lastPeakTime := upd (lastPeakTime s) 0 now;
         setpoint := myInput s; inputOffset := myInput s;
         inputOffsetChange := 0; outputStart := myOutput s;
         workingNoiseBand := noiseBand s; workingOstep := oStep s;
         newWorkingNoiseBand := noiseBand s;
         state := if controlType s =? AMIGOF_PI
                  then AUTOTUNE_STEADY_STATE_AT_BASELINE
                  else AUTOTUNE_RELAY_STEP_UP }}
  else s.

(** relay switching with hysteresis; returns [justChanged] *)
Definition at_relay (s : PID) (refVal : Q) : PID * bool :=
  let '(s, justChanged) :=
    if (state s =? AUTOTUNE_RELAY_STEP_UP)
       && Qltb (setpoint s + workingNoiseBand s) refVal
    then (s {{ state := AUTOTUNE_RELAY_STEP_DOWN }}, true)
    else if (state s =? AUTOTUNE_RELAY_STEP_DOWN)
            && Qltb refVal (setpoint s - workingNoiseBand s)
    then (s {{ state := AUTOTUNE_RELAY_STEP_UP }}, true)
    else (s, false) in
  if justChanged
  then (s {{ workingNoiseBand := newWorkingNoiseBand s }}, true)
  else (s, false).

(** the relay output *)
Definition at_output (s : PID) : PID :=
  if is_state_in s (Z.lor AUTOTUNE_STEADY_STATE_AFTER_STEP_UP
                           AUTOTUNE_RELAY_STEP_UP)
  then s {{ myOutput := (outputStart s + workingOstep s)%Q }}
  else if state s =? AUTOTUNE_RELAY_STEP_DOWN
  then s {{ myOutput := (outputStart s - workingOstep s)%Q }}
  else s.

(** filling the look-back window *)
Definition at_fill (s : PID) (refVal : Q) : flow unit :=
  let s := s {{ inputCount := to_byte (inputCount s + 1) }} in
  if inputCount s <=? nLookBack s
  then Ret false (s {{ lastInputs :=
         upd (lastInputs s) (Z.to_nat (nLookBack s - inputCount s))
             (makeDecimal 3 (refVal - inputOffset s)) }})
  else Go tt s.

(** [for (int i = inputCount - 1; i >= 0; i--)]: extrema of the window and
    shift of the window by one place *)
Fixpoint scan (offsetChange : Z) (i : nat) (a : list Z) (iMax iMin : Z)
    : list Z * Z * Z :=
  match i with
  | O => (a, iMax, iMin)
  | S j =>
      let nextVal := get 0 a j in
      let iMax := if iMax <? nextVal then nextVal else iMax in
      let iMin := if nextVal <? iMin then nextVal else iMin in
      scan offsetChange j (upd a i (nextVal - offsetChange)) iMax iMin
  end.

(** peak candidates of the de-trended window; hands over
    [(iMax, iMin, isMax, isMin)] *)
Definition at_window (s : PID) (refVal : Q) : flow (Z * Z * bool * bool) :=
  let s := s {{ inputCount := nLookBack s }} in
  let i0 := get 0 (lastInputs s) 0 in
  let '(a, iMax, iMin) :=
    scan (inputOffsetChange s) (Z.to_nat (inputCount s)) (lastInputs s) i0 i0 in
  let val := makeDecimal 3 (refVal - inputOffset s) in
  let a := upd a 0 (val - inputOffsetChange s) in
  let isMax := iMax <=? val in
  let isMin := val <=? iMin in
  let s := s {{ lastInputs := a;
                inputOffset := (inputOffset s
                                + toDouble 3 (inputOffsetChange s))%Q }} in
  let midRange := rescale6to3 ((iMax + iMin) * 500) in
  let s := s {{ inputOffsetChange := midRange - inputOffsetChange s }} in
  Go (iMax, iMin, isMax, isMin) s.

(** AMIGOf: steady state at the baseline and after the step up; with
    [workingOstep = 0] the division gives [K_process = 0] in [Q] where the
    C code gets an infinity or NaN. *)
Definition at_steady (s : PID) (iMax iMin : Z) : flow unit :=
  if is_state_in s (Z.lor AUTOTUNE_STEADY_STATE_AT_BASELINE
                           AUTOTUNE_STEADY_STATE_AFTER_STEP_UP) then
    if Qleb (toDouble 3 (iMax - iMin)) (2 * workingNoiseBand s) then
      let level := (inputOffset s + toDouble 3 (inputOffsetChange s))%Q in
      if state s =? AUTOTUNE_STEADY_STATE_AT_BASELINE then
        Ret false (s {{ state := AUTOTUNE_STEADY_STATE_AFTER_STEP_UP;
                        lastPeaks := upd (lastPeaks s) 0 level;
                        inputCount := 0; inputOffset := level }})
      else
        let s := s {{ K_process :=
                        ((level - get 0%Q (lastPeaks s) 0) / workingOstep s)%Q }} in
        if zero (K_process s)
        then Ret false (s {{ state := AUTOTUNE_FAILED }})
        else Ret false (s {{ state := AUTOTUNE_RELAY_STEP_DOWN }})
    else Ret false s
  else Go tt s.

(** peak events; returns [justChanged] *)
Definition at_peaks (s : PID) (refVal : Q) (isMax isMin : bool) : PID * bool :=
  let now := lastTime s in
  let '(justChanged, pt) :=
    if isMax then (peakType s =? MINIMUM, MAXIMUM)
    else if isMin then (peakType s =? MAXIMUM, MINIMUM)
    else (false, peakType s) in
  let s := s {{ peakType := pt }} in
  let s :=
    if justChanged then
      let s := s {{ peakCount := to_byte (peakCount s + 1) }} in
      let k := Z.to_nat (if 4 <? peakCount s then 4 else peakCount s) in
      s {{ lastPeakTime := shift_down 0 k (lastPeakTime s);
           lastPeaks := shift_down 0%Q k (lastPeaks s) }}
    else s in
  let s :=
    if isMax || isMin
    then s {{ lastPeakTime := upd (lastPeakTime s) 0 now;
              lastPeaks := upd (lastPeaks s) 0 refVal }}
    else s in
  (s, justChanged).

(** [for (byte i = 2; i <= 4; i++)]: sum of the peak-to-peak differences,
    maximum and minimum of [lastPeaks[1..4]] *)
Definition amplitude_loop (lp : list Q) : Q * Q * Q :=
  fold_left
    (fun '(amp, absMax, absMin) i =>
       let val := get 0%Q lp i in
       let amp := (amp + dabs (val - get 0%Q lp (i - 1)))%Q in
       let absMax := if Qltb absMax val then val else absMax in
       let absMin := if Qltb val absMin then val else absMin in
       (amp, absMax, absMin))
    [2; 3; 4]%nat
    (0%Q, get 0%Q lp 1, get 0%Q lp 1).

(** convergence test; hands over [inducedAmplitude]; with
    [inducedAmplitude = 0] the tolerance quotient is 0 in [Q] (so the test
    passes), where the C code compares an infinity or NaN (and fails). *)
Definition at_converge (s : PID) (justChanged : bool) : flow Q :=
  if justChanged && (4 <? peakCount s) then
    let '(amp, absMax, absMin) := amplitude_loop (lastPeaks s) in
    let inducedAmplitude := (amp / 6)%Q in
    let converge :=
      if Qltb ((0.5 * (absMax - absMin) - inducedAmplitude) / inducedAmplitude)
              AUTOTUNE_PEAK_AMPLITUDE_TOLERANCE
      then Go inducedAmplitude (s {{ state := AUTOTUNE_CONVERGED }})
      else Go inducedAmplitude s in
    if controlType s =? AMIGOF_PI then
      let phaseLag := calculatePhaseLag s inducedAmplitude in
      if Qltb (CONST_PI * 15 / 180) (dabs (phaseLag - CONST_PI * 130 / 180))
      then Ret false (s {{ newWorkingNoiseBand :=
                             (inducedAmplitude * 0.5 * CONST_SQRT2_DIV_2)%Q }})
      else converge
    else converge
  else Go 0%Q s.

(** failure: too many peaks or too long since the last peak *)
Definition at_fail (s : PID) : PID :=
  let now := lastTime s in
  if (AUTOTUNE_MAX_WAIT <? usub now (get 0 (lastPeakTime s) 0))
     || (20 <=? peakCount s)
  then s {{ state := AUTOTUNE_FAILED }}
  else s.

(** end of the run: gain synthesis on convergence *)
Definition at_finish (s : PID) (inducedAmplitude : Q) : flow unit :=
  if Z.land (state s) (Z.lor AUTOTUNE_CONVERGED AUTOTUNE_FAILED) =? 0
  then Ret false s
  else
    let s := s {{ myOutput := outputStart s }} in
    if state s =? AUTOTUNE_FAILED then Ret true s
    else
      let Ku := (4 / CONST_PI * (workingOstep s / inducedAmplitude))%Q in
      let t := lastPeakTime s in
      let Pu := (inject_Z ((usub (get 0%Z t 1) (get 0%Z t 3)
                            + usub (get 0%Z t 2) (get 0%Z t 4)) mod ULONG_MOD)
                 / 2000)%Q in
      if controlType s =? AMIGOF_PI then
        let kappa_phi := (1 / Ku / K_process s)%Q in
        let phaseLag := calculatePhaseLag s inducedAmplitude in
        let d := (1 + (-6.10 + 3.44 * phaseLag) * kappa_phi)%Q in
        Ret true (s {{ Kp := ((2.50 - 0.92 * phaseLag)
                              / (1 + (10.75 - 4.01 * phaseLag) * kappa_phi)
                              * Ku)%Q;
                       Ti := ((-3.05 + 1.72 * phaseLag) / (d * d) * Pu)%Q;
                       Td := 0%Q }})
      else
        let r := rule (controlType s) in
        Ret true (s {{ Kp := (Ku / divisor r AUTOTUNE_KP_DIVISOR)%Q;
                       Ti := (Pu / divisor r AUTOTUNE_TI_DIVISOR)%Q;
                       Td := if PI_controller r then 0%Q
                             else (Pu / divisor r AUTOTUNE_TD_DIVISOR)%Q }}).

(** [PID::autoTune]: one tuner step; returns whether the run is done *)
Definition autoTune (s : PID) : bool * PID :=
  let s := at_start s in
  let refVal := myInput s in
  let '(s, _) := at_relay s refVal in
  let s := at_output s in
  let r :=
    let! _ s := at_fill s refVal in
    let! w s := at_window s refVal in
    let '(iMax, iMin, isMax, isMin) := w in
    let! _ s := at_steady s iMax iMin in
    let '(s, justChanged) := at_peaks s refVal isMax isMin in
    let! inducedAmplitude s := at_converge s justChanged in
    at_finish (at_fail s) inducedAmplitude in
  match r with
  | Ret done s => (done, s)
  | Go _ s => (false, s)
  end.

(** [PID::compute], called at time [now] (the value of [millis()]) *)
Definition compute (now : Z) (s : PID) : PID :=
  let timeChange := usub now (lastTime s) in
  if timeChange <? sampleTime s mod ULONG_MOD then s
  else
    let s := s {{ lastTime := now }} in
    if isTuning s then
      let '(finishedTuning, s) := autoTune s in
      if finishedTuning
      then completeAutoTune (s {{ isTuning := false }})
      else s
    else if mode s =? MANUAL then s
    else
      let input := myInput s in
      let error := (mySetpoint s - input)%Q in
      let s := s {{ iTerm := (iTerm s + ki s * error)%Q }} in
      let s := s {{ iTerm := limit s (iTerm s) }} in
      let dInput := (input - lastInput s)%Q in
      let output := (kp s * error + iTerm s - kd s * dInput)%Q in
      let output := limit s output in
      s {{ myOutput := output; lastInput := input }}.

End AutoTune.

(** ** Storage of a statically allocated engine

    [myPID] is a global object: its storage is zero-initialised before the
    constructor runs. *)
Definition zeroPID : PID := {|
  myInput := 0; myOutput := 0; mySetpoint := 0;
  manualOutput := 0; PGain := 0; IGain := 0; DGain := 0;
  dispKp := 0; dispKi := 0; dispKd := 0; kp := 0; ki := 0; kd := 0;
  controllerDirection := 0; isTuning := false; mode := 0; lastTime := 0;
  iTerm := 0; lastInput := 0; sampleTime := 0; outMin := 0; outMax := 0;
  ATuneModeRemember := 0; manualOutputRemember := 0; oStep := 0;
  noiseBand := 0; nLookBack := 0; controlType := 0; state := 0;
  setpoint := 0; outputStart := 0; workingNoiseBand := 0; workingOstep := 0;
  peakType := 0; lastPeakTime := repeat 0 5; lastPeaks := repeat 0%Q 5;
  peakCount := 0; inputOffset := 0; inputOffsetChange := 0;
  lastInputs := repeat 0 101; inputCount := 0; Kp := 0; Ti := 0; Td := 0;
  newWorkingNoiseBand := 0; K_process := 0 |}.

(** ** The older controller, PID_v1.cpp

    Its [SampleTime] is the field [sampleTime]; [setTunings],
    [setOutputLimits] and [limit] are the same code as in the engine. *)
Module PID_v1.

(** [PID::setControllerDirection] of PID_v1.cpp *)
Definition setControllerDirection (s : PID) (Direction : Z) : PID :=
  let s := if (mode s =? AUTOMATIC) && negb (Direction =? controllerDirection s)
           then s {{ kp := (0 - kp s)%Q; ki := (0 - ki s)%Q; kd := (0 - kd s)%Q }}
           else s in
  s {{ controllerDirection := Direction }}.

(** [PID::PID] of PID_v1.cpp *)
Definition PID_new (raw : PID) (millis : Z) (Kp Ki Kd : Z)
    (ControllerDirection : Z) : PID :=
  let s := setOutputLimits raw 0 255 in
  let s := s {{ sampleTime := 100 }} in
  let s := setControllerDirection s ControllerDirection in
  let s := setTunings s Kp Ki Kd in
  s {{ lastTime := usub millis (sampleTime s); isTuning := false;
       mode := MANUAL }}.

(** [PID::compute] of PID_v1.cpp, called at time [now] (the value of
    [millis()]) *)
Definition compute (now : Z) (s : PID) : PID :=
  if mode s =? MANUAL then s
  else
    let timeChange := usub now (lastTime s) in
    if sampleTime s mod ULONG_MOD <=? timeChange then
      let input := myInput s in
      let error := (mySetpoint s - input)%Q in
      let s := s {{ iTerm := (iTerm s + ki s * error)%Q }} in
      let s := s {{ iTerm := limit s (iTerm s) }} in
      let dInput := (input - lastInput s)%Q in
      let output := (kp s * error + iTerm s - kd s * dInput)%Q in
      let output := limit s output in
      s {{ myOutput := output; lastInput := input; lastTime := now }}
    else s.

End PID_v1.

(** ** Set-point profiles

    The profile runner of the firmware, next to the engine in the same
    source file. The buzzer calls and the bookkeeping of
    [recordProfileStart], [recordProfileStepCompletion] and
    [recordProfileCompletion] (EEPROM writes) leave the state below
    unchanged and are not modelled; [ospAssert] is a debugging check. *)

(** the step codes of ospProfile.h *)
Definition STEP_RAMP_TO_SETPOINT : Z := 0.
Definition STEP_SOAK_AT_VALUE : Z := 1.
Definition STEP_JUMP_TO_SETPOINT : Z := 2.
Definition STEP_WAIT_TO_CROSS : Z := 3.
Definition STEP_HOLD_UNTIL_CANCEL : Z := 4.
Definition STEP_INVALID : Z := 127.
Definition STEP_TYPE_MASK : Z := 63.
Definition NR_STEPS : Z := 16.

(** [struct ProfileState] *)
Record ProfileState := mkProfileState {
  stepEndMillis : Z;            (* unsigned long *)
  stepDuration : Z;             (* unsigned long *)
  targetSetpoint : Z;           (* ospDecimalValue<1> *)
  initialSetpoint : Z;          (* ospDecimalValue<1> *)
  stepType : Z;                 (* byte *)
  temperatureRising : bool
}.

(** the globals the profile runner reads and writes *)
Record Globals := mkGlobals {
  now : Z;                      (* unsigned long *)
  activeSetPoint : Q;
  lastGoodInput : Q;
  activeProfileIndex : Z;       (* byte *)
  currentProfileStep : Z;       (* byte *)
  runningProfile : bool;
  profileState : ProfileState
}.

Section Profile.

(** [getProfileStepData] is declared in the sources but its definition is
    not part of them: it returns the type, the duration and the end point
    of step [i] of profile [profileIndex]. *)
Variable getProfileStepData : Z -> Z -> Z * Z * Z.

(** [startCurrentProfileStep]; returns whether a step was started *)
Definition startCurrentProfileStep (g : Globals) : Globals * bool :=
  let '(type, duration, endpoint) :=
    getProfileStepData (activeProfileIndex g) (currentProfileStep g) in
  let ps := (profileState g) {{ stepDuration := duration;
                                targetSetpoint := endpoint }} in
  if type =? STEP_INVALID then (g {{ profileState := ps }}, false)
  else
    let ps := ps {{ stepType := Z.land type STEP_TYPE_MASK;
                    stepEndMillis := (now g + stepDuration ps) mod ULONG_MOD }} in
    let g := g {{ profileState := ps }} in
    if stepType ps =? STEP_RAMP_TO_SETPOINT then
      (g {{ profileState :=
              ps {{ initialSetpoint := makeDecimal 1 (activeSetPoint g) }} }}, true)
    else if stepType ps =? STEP_SOAK_AT_VALUE then (g, true)
    else if stepType ps =? STEP_JUMP_TO_SETPOINT then
      (g {{ activeSetPoint := toDouble 1 (targetSetpoint ps) }}, true)
    else if stepType ps =? STEP_WAIT_TO_CROSS then
      (g {{ profileState :=
              ps {{ temperatureRising :=
                      Qltb (lastGoodInput g) (toDouble 1 (targetSetpoint ps)) }} }},
       true)
    else (g, false).

(** [stopProfile] *)
Definition stopProfile (g : Globals) : Globals :=
  g {{ runningProfile := false }}.

(** [startProfile] *)
Definition startProfile (g : Globals) : Globals :=
  let g := g {{ currentProfileStep := 0; runningProfile := true }} in
  let '(g, started) := startCurrentProfileStep g in
  if started then g else stopProfile g.

(** the end of [profileLoopIteration], reached when the step is done:
    load the next step if it exists *)
Definition profileStepDone (g : Globals) : Globals :=
  if currentProfileStep g <? NR_STEPS then
    let g := g {{ currentProfileStep := currentProfileStep g + 1 }} in
    let '(g, started) := startCurrentProfileStep g in
    if started then g else stopProfile g
  else stopProfile g.

(** [profileLoopIteration]; in the [switch], [inl] is a [return] and [inr]
    a [break] *)
Definition profileLoopIteration (g : Globals) : Globals :=
  let ps := profileState g in
  let target := toDouble 1 (targetSetpoint ps) in
  let stepTimeLeft := wrap32 (stepEndMillis ps - now g) in
  let r : Globals + Globals :=
    if stepType ps =? STEP_RAMP_TO_SETPOINT then
      if stepTimeLeft <=? 0 then inr (g {{ activeSetPoint := target }})
      else
        let delta := (target - toDouble 1 (initialSetpoint ps))%Q in
        inl (g {{ activeSetPoint :=
                    (target - delta * inject_Z stepTimeLeft
                              / inject_Z (stepDuration ps))%Q }})
    else if (stepType ps =? STEP_SOAK_AT_VALUE)
            || (stepType ps =? STEP_JUMP_TO_SETPOINT) then
      if 0 <? stepTimeLeft then inl g else inr g
    else if stepType ps =? STEP_WAIT_TO_CROSS then
      if Qltb (lastGoodInput g) target && temperatureRising ps then inl g
      else if Qltb target (lastGoodInput g) && negb (temperatureRising ps)
      then inl g
      else inr g
    else inr g in
  match r with
  | inl g => g
  | inr g => profileStepDone g
  end.

End Profile.

(** a profile whose every step is a 60 s ramp to 100.0 *)
Definition ramp_profile (profileIndex i : Z) : Z * Z * Z :=
  (STEP_RAMP_TO_SETPOINT, 60000, 1000).

(** step 3 of [ramp_profile], 30 s into its ramp from 20.0 to 100.0 *)
Definition ramping : Globals := {|
  now := 30000; activeSetPoint := 60%Q; lastGoodInput := 55%Q;
  activeProfileIndex := 0; currentProfileStep := 3; runningProfile := true;
  profileState := {| stepEndMillis := 60000; stepDuration := 60000;
                     targetSetpoint := 1000; initialSetpoint := 200;
                     stepType := STEP_RAMP_TO_SETPOINT;
                     temperatureRising := false |} |}.

(** the same step 1 s after the end of its ramp *)
Definition ramp_over : Globals := ramping {{ now := 61000 }}.

(** ** The main loop and concrete configurations *)

(** [loop()] calling [myPID.compute()] [n] times, every [dt] ms from [t] *)
Fixpoint ticks (sqrt : Q -> Q) (n : nat) (t dt : Z) (s : PID) : PID :=
  match n with
  | O => s
  | S k => ticks sqrt k ((t + dt) mod ULONG_MOD) dt (compute sqrt t s)
  end.

(** a square root for the concrete runs below (the classical methods never
    call it) *)
Definition sqrt_id (x : Q) : Q := x.

(** [myPID] after its construction at time 5000 ms with Kp = 1, Ki = 0.2,
    Kd = 0 and direction DIRECT, and after [setup()] configured the loop;
    the input reads 20 and the set point is 25 *)
Definition booted : PID :=
  let s := PID_new zeroPID 5000 1000 200 0 DIRECT in
  let s := setSampleTime s DEFAULT_LOOP_SAMPLE_TIME in
  let s := setOutputLimits s 0 100 in
  let s := setTunings s 1000 200 0 in
  s {{ myInput := 20%Q; mySetpoint := 25%Q }}.

(** the relay phase of a tuning run: the relay steps up or down *)
Definition relay_phase (s : PID) : Prop :=
  state s = AUTOTUNE_RELAY_STEP_UP \/ state s = AUTOTUNE_RELAY_STEP_DOWN.

(** the state a stage of the tuner hands over, whether it returns or goes
    on *)
Definition flow_pid {A} (c : flow A) : PID :=
  match c with Ret _ t => t | Go _ t => t end.

(** the relay output and its two ingredients are unchanged from [s] to [t] *)
Definition keeps_output (s t : PID) : Prop :=
  myOutput t = myOutput s /\ outputStart t = outputStart s /\
  workingOstep t = workingOstep s.

(** the output the relay writes in the state it is in *)
Definition relay_output (t : PID) : Prop :=
  (state t = AUTOTUNE_RELAY_STEP_UP /\
   myOutput t = (outputStart t + workingOstep t)%Q) \/
  (state t = AUTOTUNE_RELAY_STEP_DOWN /\
   myOutput t = (outputStart t - workingOstep t)%Q).

(** [myPID] in AUTOMATIC mode holding the output 90.04 when an auto-tune
    run starts with the Ziegler-Nichols PID method, the step 10.0, the
    noise band 0.5 and a look-back of 10 s *)
Definition tuning_near_max : PID :=
  startAutoTune ((setMode booted AUTOMATIC) {{ myOutput := 9004 # 100 }})
    ZIEGLER_NICHOLS_PID 100 500 10.

(** A run of the Ziegler-Nichols PID method started in MANUAL mode from the
    manual output 50.0, caught in the relay step up after its 19th peak:
    the next sample is a maximum of the look-back window, which makes the
    20th peak, and the last four peaks 23, 17, 22, 18 have not converged.
    The tuner still holds the results Kp = 2, Ti = 100, Td = 25 of an
    earlier run. *)
Definition failing_run : PID :=
  (startAutoTune (booted {{ myOutput := 50%Q; manualOutput := 500 }})
     ZIEGLER_NICHOLS_PID 100 500 1)
  {{ state := AUTOTUNE_RELAY_STEP_UP; setpoint := 20%Q; outputStart := 50%Q;
     workingNoiseBand := (1#2)%Q; workingOstep := 10%Q;
     newWorkingNoiseBand := (1#2)%Q;
     inputOffset := 20%Q; inputOffsetChange := 0;
     peakType := MINIMUM; peakCount := 19;
     lastPeakTime := [90000; 80000; 70000; 60000; 50000];
     lastPeaks := [23%Q; 17%Q; 22%Q; 18%Q; 23%Q];
     inputCount := 1; myInput := (41#2)%Q; myOutput := 60%Q;
     Kp := 2%Q; Ti := 100%Q; Td := 25%Q }}.

(** A run started in MANUAL mode from the manual output 50.0 with the
    Ziegler-Nichols PID method, step 10.0, noise band 0.5 and a look-back
    of 10 s, on a process whose input stays at 20 *)
Definition flat_run : PID :=
  startAutoTune (booted {{ myOutput := 50%Q; manualOutput := 500 }})
    ZIEGLER_NICHOLS_PID 100 500 10.

(** The run [failing_run] after its 4th peak, with the last peaks 23, 17,
    23, 17 of an oscillation of amplitude 3, at time 100000 ms *)
Definition converging_run : PID :=
  failing_run {{ peakCount := 4; lastPeaks := [23%Q; 17%Q; 23%Q; 17%Q; 0%Q];
                 lastTime := 100000 }}.

(** ** Lemmas about [limit] *)

From Stdlib Require Import Lqa.

Lemma Qltb_spec (x y : Q) : Qltb x y = true <-> (x < y)%Q.
Proof.
  unfold Qltb. rewrite Bool.negb_true_iff.
  split; intro H.
  - apply Qnot_le_lt. intro H'. apply Qle_bool_iff in H'. congruence.
  - destruct (Qle_bool y x) eqn:E; [|reflexivity].
    apply Qle_bool_iff in E. exfalso. apply (Qlt_not_le _ _ H E).
Qed.

Lemma Qltb_false (x y : Q) : Qltb x y = false <-> (y <= x)%Q.
Proof.
  unfold Qltb. rewrite Bool.negb_false_iff. apply Qle_bool_iff.
Qed.

Ltac qltb :=
  repeat match goal with
         | H : Qltb _ _ = true |- _ => apply Qltb_spec in H
         | H : Qltb _ _ = false |- _ => apply Qltb_false in H
         end.

Lemma limit_in_range (s : PID) (x : Q) :
  (outMin s <= x)%Q -> (x <= outMax s)%Q -> limit s x = x.
Proof.
  intros H1 H2. unfold limit.
  destruct (Qltb (outMax s) x) eqn:E1; qltb; [lra|].
  destruct (Qltb x (outMin s)) eqn:E2; qltb; [lra|reflexivity].
Qed.

Lemma limit_proper (s : PID) (x y : Q) : (x == y)%Q -> (limit s x == limit s y)%Q.
Proof.
  intros H. unfold limit.
  destruct (Qltb (outMax s) x) eqn:E1, (Qltb (outMax s) y) eqn:E2,
    (Qltb x (outMin s)) eqn:E3, (Qltb y (outMin s)) eqn:E4; qltb; lra.
Qed.

Lemma limit_bounds (s : PID) (x : Q) :
  (outMin s <= outMax s)%Q ->
  (outMin s <= limit s x)%Q /\ (limit s x <= outMax s)%Q.
Proof.
  intros H. unfold limit.
  destruct (Qltb (outMax s) x) eqn:E1, (Qltb x (outMin s)) eqn:E2; qltb; lra.
Qed.

(** ** Lemmas about the stages of [autoTune] *)

Ltac split_ifs :=
  repeat (match goal with
          | |- context [if ?c then _ else _] => destruct c eqn:?
          end; cbv beta iota).

Lemma at_start_running (s : PID) : state s <> AUTOTUNE_OFF -> at_start s = s.
Proof. intros H. unfold at_start. rewrite (proj2 (Z.eqb_neq _ _) H). reflexivity. Qed.

Lemma at_relay_frame (s t : PID) (v : Q) (b : bool) :
  at_relay s v = (t, b) -> relay_phase s ->
  relay_phase t /\ lastTime t = lastTime s /\ controlType t = controlType s /\
  nLookBack t = nLookBack s /\ inputCount t = inputCount s.
Proof.
  unfold at_relay, relay_phase. intros E H. revert E.
  split_ifs; intro E; injection E as <- <-; destruct s; simpl in *; unfold constant;
    intuition congruence.
Qed.

Lemma at_output_frame (s : PID) :
  state (at_output s) = state s /\ lastTime (at_output s) = lastTime s /\
  controlType (at_output s) = controlType s /\
  nLookBack (at_output s) = nLookBack s /\ inputCount (at_output s) = inputCount s.
Proof. unfold at_output. split_ifs; destruct s; repeat split. Qed.

Lemma at_fill_full (s : PID) (v : Q) :
  nLookBack s < to_byte (inputCount s + 1) ->
  at_fill s v = Go tt (s {{ inputCount := to_byte (inputCount s + 1) }}).
Proof.
  intros H. unfold at_fill.
  set (t := s {{ inputCount := to_byte (inputCount s + 1) }}).
  assert (E1 : inputCount t = to_byte (inputCount s + 1))
    by (destruct s; reflexivity).
  assert (E2 : nLookBack t = nLookBack s) by (destruct s; reflexivity).
  rewrite E1, E2, (proj2 (Z.leb_gt _ _) H). reflexivity.
Qed.

Lemma at_window_frame (s : PID) (v : Q) :
  exists w t, at_window s v = Go w t /\ state t = state s /\
  lastTime t = lastTime s /\ controlType t = controlType s.
Proof.
  unfold at_window. destruct (scan _ _ _ _ _) as [[a iMax] iMin].
  eexists _, _. split; [reflexivity|]. destruct s; repeat split.
Qed.

Lemma at_steady_relay (s : PID) (iMax iMin : Z) :
  relay_phase s -> at_steady s iMax iMin = Go tt s.
Proof.
  intros [H|H]; unfold at_steady, is_state_in; rewrite H; reflexivity.
Qed.

Lemma at_peaks_frame (s t : PID) (v : Q) (a b j : bool) :
  at_peaks s v a b = (t, j) ->
  state t = state s /\ lastTime t = lastTime s /\ controlType t = controlType s.
Proof.
  unfold at_peaks. intros E. revert E.
  destruct a, b; cbv beta iota; split_ifs; intro E; injection E as <- <-;
    destruct s; repeat split.
Qed.

Lemma at_converge_frame (sqrt : Q -> Q) (s : PID) (j : bool) :
  controlType s <> AMIGOF_PI ->
  exists a t, at_converge sqrt s j = Go a t /\
  (state t = state s \/ state t = AUTOTUNE_CONVERGED) /\
  lastTime t = lastTime s /\ peakCount t = peakCount s /\
  lastPeakTime t = lastPeakTime s.
Proof.
  intros H. unfold at_converge.
  rewrite (proj2 (Z.eqb_neq _ _) H).
  destruct (j && (4 <? peakCount s)); [|eexists _, _; split; [reflexivity|];
    repeat split; left; reflexivity].
  destruct (amplitude_loop (lastPeaks s)) as [[amp mx] mn].
  destruct (Qltb _ _); eexists _, _; (split; [reflexivity|]);
    destruct s; simpl; repeat split; auto.
Qed.

Lemma at_fail_spec (s : PID) :
  (state (at_fail s) = AUTOTUNE_FAILED <->
   (AUTOTUNE_MAX_WAIT < usub (lastTime s) (get 0 (lastPeakTime s) 0)
    \/ 20 <= peakCount s) \/ state s = AUTOTUNE_FAILED) /\
  lastTime (at_fail s) = lastTime s /\ peakCount (at_fail s) = peakCount s /\
  lastPeakTime (at_fail s) = lastPeakTime s.
Proof.
  unfold at_fail.
  destruct (AUTOTUNE_MAX_WAIT <? usub (lastTime s) (get 0 (lastPeakTime s) 0)) eqn:E1;
  [|destruct (20 <=? peakCount s) eqn:E2]; simpl;
  try rewrite Z.ltb_lt in E1; try rewrite Z.ltb_ge in E1;
  try rewrite Z.leb_le in E2; try rewrite Z.leb_gt in E2;
  destruct s; simpl in *; (split; [|repeat split]); try tauto; lia.
Qed.

Lemma at_finish_frame (sqrt : Q -> Q) (s : PID) (a : Q) :
  exists d t, at_finish sqrt s a = Ret d t /\ state t = state s /\
  lastTime t = lastTime s /\ peakCount t = peakCount s /\
  lastPeakTime t = lastPeakTime s.
Proof.
  unfold at_finish. split_ifs; eexists _, _; (split; [reflexivity|]);
    destruct s; repeat split.
Qed.

Lemma state_upd_inputCount (s : PID) (x : Z) :
  state (s {{ inputCount := x }}) = state s /\
  lastTime (s {{ inputCount := x }}) = lastTime s /\
  controlType (s {{ inputCount := x }}) = controlType s.
Proof. destruct s; repeat split. Qed.

Lemma at_fill_frame (s : PID) (v : Q) :
  (exists t, at_fill s v = Ret false t /\ state t = state s) \/
  (exists t, at_fill s v = Go tt t /\ state t = state s /\
             lastTime t = lastTime s /\ controlType t = controlType s).
Proof.
  unfold at_fill. destruct (_ <=? _); [left|right]; eexists;
    (split; [reflexivity|]); destruct s; repeat split.
Qed.

Lemma at_converge_converged (sqrt : Q -> Q) (s t : PID) (j : bool) (a : Q) :
  controlType s <> AMIGOF_PI -> state s <> AUTOTUNE_CONVERGED ->
  at_converge sqrt s j = Go a t -> state t = AUTOTUNE_CONVERGED ->
  a = (fst (fst (amplitude_loop (lastPeaks s))) / 6)%Q /\
  t = s {{ state := AUTOTUNE_CONVERGED }}.
Proof.
  intros Hc Hs E Ht. unfold at_converge in E.
  rewrite (proj2 (Z.eqb_neq _ _) Hc) in E.
  destruct (j && (4 <? peakCount s)).
  - destruct (amplitude_loop (lastPeaks s)) as [[amp mx] mn].
    destruct (Qltb _ _); injection E as <- <-; [split; reflexivity|].
    contradiction.
  - injection E as <- <-. contradiction.
Qed.

Lemma at_fail_keep (s : PID) :
  state (at_fail s) <> AUTOTUNE_FAILED -> at_fail s = s.
Proof.
  unfold at_fail. destruct (_ || _); [|reflexivity].
  intros H. exfalso. apply H. destruct s; reflexivity.
Qed.

Lemma at_finish_converged (sqrt : Q -> Q) (s : PID) (a : Q) :
  state s = AUTOTUNE_CONVERGED -> controlType s <> AMIGOF_PI ->
  exists t, at_finish sqrt s a = Ret true t /\
  let Ku := (4 / CONST_PI * (workingOstep s / a))%Q in
  let tm := lastPeakTime s in
  let Pu := (inject_Z ((usub (get 0%Z tm 1) (get 0%Z tm 3)
                        + usub (get 0%Z tm 2) (get 0%Z tm 4)) mod ULONG_MOD)
             / 2000)%Q in
  let r := rule (controlType s) in
  Kp t = (Ku / divisor r AUTOTUNE_KP_DIVISOR)%Q /\
  Ti t = (Pu / divisor r AUTOTUNE_TI_DIVISOR)%Q /\
  Td t = (if PI_controller r then 0%Q
          else (Pu / divisor r AUTOTUNE_TD_DIVISOR))%Q /\
  state t = state s /\ workingOstep t = workingOstep s /\
  lastPeaks t = lastPeaks s /\ lastPeakTime t = lastPeakTime s /\
  controlType t = controlType s.
Proof.
  intros Hs Hc. unfold at_finish.
  assert (E : forall x, state (s {{ myOutput := x }}) = state s)
    by (destruct s; reflexivity).
  rewrite Hs. change (Z.land AUTOTUNE_CONVERGED (Z.lor AUTOTUNE_CONVERGED AUTOTUNE_FAILED) =? 0)
    with false. cbv iota.
  rewrite E, Hs. change (AUTOTUNE_CONVERGED =? AUTOTUNE_FAILED) with false. cbv iota.
  assert (C : forall x, controlType (s {{ myOutput := x }}) = controlType s)
    by (destruct s; reflexivity).
  rewrite C, (proj2 (Z.eqb_neq _ _) Hc).
  eexists. split; [reflexivity|]. destruct s; simpl in *; repeat split; assumption.
Qed.

Lemma state_upd_converged (s : PID) :
  let t := s {{ state := AUTOTUNE_CONVERGED }} in
  state t = AUTOTUNE_CONVERGED /\ workingOstep t = workingOstep s /\
  lastPeaks t = lastPeaks s /\ lastPeakTime t = lastPeakTime s /\
  controlType t = controlType s.
Proof. destruct s; repeat split. Qed.

Lemma relay_not_converged (s : PID) :
  relay_phase s -> state s <> AUTOTUNE_CONVERGED.
Proof. intros [H|H]; rewrite H; discriminate. Qed.

(** ** Claims about the controller *)

Lemma compute_law_eq (sqrt : Q -> Q) (now : Z) (s : PID) :
  isTuning s = false -> mode s = AUTOMATIC ->
  sampleTime s mod ULONG_MOD <= usub now (lastTime s) ->
  compute sqrt now s =
    let input := myInput s in
    let error := (mySetpoint s - input)%Q in
    let iT := limit s (iTerm s + ki s * error)%Q in
    let dInput := (input - lastInput s)%Q in
    s {{ iTerm := iT;
         myOutput := limit s (kp s * error + iT - kd s * dInput)%Q;
         lastInput := input; lastTime := now }}.
Proof.
  intros Ht Hm Hel. unfold compute.
  rewrite (proj2 (Z.ltb_ge _ _) Hel).
  destruct s; simpl in *; subst; reflexivity.
Qed.

Lemma limit_ext (s t : PID) (x : Q) :
  outMin s = outMin t -> outMax s = outMax t -> limit s x = limit t x.
Proof. intros H1 H2. unfold limit. rewrite H1, H2. reflexivity. Qed.

Lemma myOutput_upd (s : PID) (a b c : Q) (d : Z) :
  myOutput (s {{ iTerm := a; myOutput := b; lastInput := c; lastTime := d }}) = b.
Proof. destruct s; reflexivity. Qed.

(** [setMode(MANUAL)], a write [o] to the output, then [setMode(AUTOMATIC)] *)
Lemma manual_auto_switch (s : PID) (o : Q) :
  let s1 := setMode ((setMode s MANUAL) {{ myOutput := o }}) AUTOMATIC in
  isTuning s1 = isTuning s /\ mode s1 = AUTOMATIC /\
  lastTime s1 = lastTime s /\ sampleTime s1 = sampleTime s /\
  myInput s1 = myInput s /\ mySetpoint s1 = mySetpoint s /\
  kp s1 = kp s /\ ki s1 = ki s /\ kd s1 = kd s /\
  outMin s1 = outMin s /\ outMax s1 = outMax s /\
  iTerm s1 = limit s o /\ lastInput s1 = myInput s /\ myOutput s1 = o.
Proof.
  cbv zeta. unfold setMode, initialize, limit.
  destruct s as [? ? ? ? ? ? ? ? ? ? ? ? ? ? ? mode0]; destruct mode0;
    simpl; unfold constant; repeat split.
Qed.

(** C5: when [compute()] runs the PID law (mode AUTOMATIC, no tuning run,
    sample interval elapsed) it sets error = setpoint - input, adds
    ki * error to the integral accumulator and clamps it, takes the
    derivative on the input, clamps kp * error + iTerm - kd * dInput into
    the output, and records the input and the tick time; nothing else of
    the state changes. *)
Theorem compute_runs_pid_law (sqrt : Q -> Q) (now : Z) (s : PID) :
  isTuning s = false -> mode s = AUTOMATIC ->
  sampleTime s mod ULONG_MOD <= usub now (lastTime s) ->
  compute sqrt now s =
    let input := myInput s in
    let error := (mySetpoint s - input)%Q in
    let iT := limit s (iTerm s + ki s * error)%Q in
    let dInput := (input - lastInput s)%Q in
    s {{ iTerm := iT;
         myOutput := limit s (kp s * error + iT - kd s * dInput)%Q;
         lastInput := input; lastTime := now }}.
Proof.
  apply compute_law_eq.
Qed.

Lemma compute_runs_pid_law_witness :
  isTuning (setMode booted AUTOMATIC) = false /\
  mode (setMode booted AUTOMATIC) = AUTOMATIC /\
  sampleTime (setMode booted AUTOMATIC) mod ULONG_MOD
    <= usub 6000 (lastTime (setMode booted AUTOMATIC)) /\
  compute sqrt_id 6000 (setMode booted AUTOMATIC) =
    let s := setMode booted AUTOMATIC in
    let input := myInput s in
    let error := (mySetpoint s - input)%Q in
    let iT := limit s (iTerm s + ki s * error)%Q in
    let dInput := (input - lastInput s)%Q in
    s {{ iTerm := iT;
         myOutput := limit s (kp s * error + iT - kd s * dInput)%Q;
         lastInput := input; lastTime := 6000 }}.
Proof.
  refine (conj eq_refl (conj eq_refl (conj _ _))).
  - vm_compute. discriminate.
  - apply compute_runs_pid_law; [reflexivity | reflexivity |].
    vm_compute. discriminate.
Defined.

(** C3 (counterexample): in MANUAL mode and with no tuning run, a call of
    [compute()] at which the sample interval has elapsed still stores the
    tick time. *)
Lemma compute_manual_moves_lastTime :
  mode booted = MANUAL /\ isTuning booted = false /\
  lastTime (compute sqrt_id 6000 booted) <> lastTime booted.
Proof. vm_compute. split; [reflexivity | split; [reflexivity | discriminate]]. Qed.

(** C3 (amended): in MANUAL mode and with no tuning run, [compute()] leaves
    output, integral accumulator, last input and every other field as they
    are, except that it stores the current time as the last tick time when
    the sample interval has elapsed. *)
Theorem compute_manual_only_stores_tick (sqrt : Q -> Q) (now : Z) (s : PID) :
  isTuning s = false -> mode s = MANUAL ->
  compute sqrt now s =
    if usub now (lastTime s) <? sampleTime s mod ULONG_MOD then s
    else s {{ lastTime := now }}.
Proof.
  intros Ht Hm. unfold compute.
  destruct (usub now (lastTime s) <? sampleTime s mod ULONG_MOD); [reflexivity|].
  destruct s; simpl in *; subst; reflexivity.
Qed.

Lemma compute_manual_only_stores_tick_witness :
  isTuning booted = false /\ mode booted = MANUAL /\
  compute sqrt_id 6000 booted =
    if usub 6000 (lastTime booted) <? sampleTime booted mod ULONG_MOD
    then booted else booted {{ lastTime := 6000 }}.
Proof.
  refine (conj eq_refl (conj eq_refl _)).
  apply compute_manual_only_stores_tick; reflexivity.
Defined.

(** C2 (code bug): in MANUAL mode [setControllerDirection(REVERSE)] on a
    DIRECT controller does not store the new direction, where the same
    method of PID_v1.cpp does. *)
Theorem setControllerDirection_manual_keeps_direction :
  mode booted = MANUAL /\ controllerDirection booted = DIRECT /\
  controllerDirection (setControllerDirection booted REVERSE) = DIRECT /\
  controllerDirection (PID_v1.setControllerDirection booted REVERSE) = REVERSE.
Proof. vm_compute. repeat split. Qed.

(** ** Bumpless transfer *)

(** C4 (counterexample): on [booted] (input 20, set point 25, kp = 1,
    ki = 0.2), [setMode(MANUAL)], output := 50, [setMode(AUTOMATIC)] and the
    next [compute()] write 56, not the pre-switch output 50. *)
Lemma bumpless_transfer_jumps :
  let s1 := setMode ((setMode booted MANUAL) {{ myOutput := 50%Q }}) AUTOMATIC in
  let s2 := compute sqrt_id 6000 s1 in
  myInput s2 = myInput booted /\ mySetpoint s2 = mySetpoint booted /\
  myOutput s1 = 50%Q /\ lastTime s2 = 6000 /\
  (myOutput s2 == 56)%Q /\ ~ (myOutput s2 == 50)%Q.
Proof.
  vm_compute. repeat split. discriminate.
Qed.

(** C4 (amended): after [setMode(MANUAL)], a write [o] to the output and
    [setMode(AUTOMATIC)], with no tuning run, the first [compute()] that
    runs the PID law writes limit(kp * e + limit(limit(o) + ki * e)), the
    derivative term being 0, where e = setpoint - input; so it writes [o]
    back when the error is 0 and [o] lies within the output limits. *)
Theorem bumpless_transfer_output (sqrt : Q -> Q) (now : Z) (s : PID) (o : Q) :
  isTuning s = false ->
  sampleTime s mod ULONG_MOD <= usub now (lastTime s) ->
  let s1 := setMode ((setMode s MANUAL) {{ myOutput := o }}) AUTOMATIC in
  let e := (mySetpoint s - myInput s)%Q in
  myOutput (compute sqrt now s1) =
    limit s (kp s * e + limit s (limit s o + ki s * e)
             - kd s * (myInput s - myInput s))%Q /\
  ((e == 0)%Q -> (outMin s <= o)%Q -> (o <= outMax s)%Q ->
   (myOutput (compute sqrt now s1) == o)%Q).
Proof.
  intros Ht Hel s1 e.
  destruct (manual_auto_switch s o) as
    [F1 [F2 [F3 [F4 [F5 [F6 [F7 [F8 [F9 [F10 [F11 [F12 [F13 _]]]]]]]]]]]]].
  fold s1 in F1, F2, F3, F4, F5, F6, F7, F8, F9, F10, F11, F12, F13.
  assert (Hout : myOutput (compute sqrt now s1) =
    limit s (kp s * e + limit s (limit s o + ki s * e)
             - kd s * (myInput s - myInput s))%Q).
  { rewrite compute_law_eq by (try rewrite F1; try rewrite F2;
      try rewrite F3, F4; assumption || reflexivity).
    cbv zeta. rewrite myOutput_upd.
    rewrite F5, F6, F7, F8, F9, F12, F13.
    rewrite !(limit_ext s1 s) by assumption. reflexivity. }
  split; [exact Hout|].
  intros He Hlo Hhi. rewrite Hout.
  rewrite (limit_in_range s o Hlo Hhi).
  assert (A : (limit s (o + ki s * e) == o)%Q).
  { rewrite (limit_proper s (o + ki s * e) o) by (rewrite He; ring).
    rewrite (limit_in_range s o Hlo Hhi). reflexivity. }
  transitivity (limit s o).
  - apply limit_proper. rewrite A, He. ring.
  - rewrite (limit_in_range s o Hlo Hhi). reflexivity.
Qed.

Lemma bumpless_transfer_output_witness :
  isTuning booted = false /\
  sampleTime booted mod ULONG_MOD <= usub 6000 (lastTime booted) /\
  ((mySetpoint booted - myInput booted == 0)%Q -> (outMin booted <= 50)%Q ->
   (50 <= outMax booted)%Q ->
   (myOutput (compute sqrt_id 6000
      (setMode ((setMode booted MANUAL) {{ myOutput := 50%Q }}) AUTOMATIC))
    == 50)%Q).
Proof.
  refine (conj eq_refl (conj _ _)).
  - vm_compute. discriminate.
  - apply (bumpless_transfer_output sqrt_id 6000 booted 50%Q);
      [reflexivity | vm_compute; discriminate].
Defined.

(** ** The output clamp during an auto-tune run *)

(** C6 (code bug): [startAutoTune] bounds the relay step with the output
    rounded to one decimal, so from the output 90.04 it keeps the step 10.0
    and the first tuner step of [compute()] writes the relay output 100.04,
    above the output limit 100. *)
Theorem compute_relay_output_above_outMax :
  let s1 := compute sqrt_id 100000 tuning_near_max in
  (outMin tuning_near_max == 0)%Q /\ (outMax tuning_near_max == 100)%Q /\
  (outMin tuning_near_max <= myOutput tuning_near_max)%Q /\
  (myOutput tuning_near_max <= outMax tuning_near_max)%Q /\
  isTuning s1 = true /\ outMax s1 = outMax tuning_near_max /\
  (myOutput s1 == 10004 # 100)%Q /\ (outMax s1 < myOutput s1)%Q.
Proof. vm_compute. repeat split; discriminate. Qed.

(** ** A failed auto-tune run *)

(** C1 (code bug): when the tuner step of [compute()] ends the run in the
    FAILED state and reports done, [compute()] still calls
    [completeAutoTune()], which passes the stale Kp, Ti, Td to
    [setTunings]: the display gains 1.000, 0.200, 0 become 2.000, 0.020,
    50.000 and the internal gains change with them; [stopAutoTune()] does
    restore the MANUAL mode and the manual output. *)
Theorem compute_failed_run_applies_stale_gains :
  let s1 := compute sqrt_id 100000 failing_run in
  let r := autoTune sqrt_id (failing_run {{ lastTime := 100000 }}) in
  isTuning failing_run = true /\ mode failing_run = MANUAL /\
  fst r = true /\ state (snd r) = AUTOTUNE_FAILED /\
  (dispKp failing_run, dispKi failing_run, dispKd failing_run)
    = (1000, 200, 0) /\
  (dispKp s1, dispKi s1, dispKd s1) = (2000, 20, 50000) /\
  (kp failing_run == 1)%Q /\ (kp s1 == 2)%Q /\
  (ki failing_run == 1 # 5)%Q /\ (ki s1 == 1 # 50)%Q /\
  (kd failing_run == 0)%Q /\ (kd s1 == 50)%Q /\
  isTuning s1 = false /\ mode s1 = MANUAL /\ manualOutput s1 = 500 /\
  (myOutput s1 == 50)%Q.
Proof. vm_compute. repeat split. Qed.

(** ** Failure of an auto-tune run *)

(** C7 (code bug): a Ziegler-Nichols run on a constant input never
    produces a peak, yet after 40 calls of [compute()], 10 s apart (390 s,
    more than the 5 minute [AUTOTUNE_MAX_WAIT]), it has not failed and is
    still in the relay step up with no peak counted: every sample is a
    maximum of the look-back window, and the tuner sets
    [lastPeakTime[0] = now] at every window maximum or minimum, so the
    peak timeout never fires. *)
Lemma flat_run_never_fails :
  let s := ticks sqrt_id 40 5000 10000 flat_run in
  lastTime s = 395000 /\ peakCount s = 0 /\ isTuning s = true /\
  state s = AUTOTUNE_RELAY_STEP_UP /\ lastPeakTime s = [395000; 0; 0; 0; 0].
Proof. vm_compute. repeat split. Qed.

(** The failure test of the relay phase: a tuner step, for a method other than
    AMIGOf and with a full look-back window, ends in FAILED exactly when,
    after the step has recorded its sample, at least 20 peaks have been
    counted or more than AUTOTUNE_MAX_WAIT ms have passed since
    [lastPeakTime[0]], the time of the last sample that was a maximum or
    minimum of the window. *)
Theorem autoTune_fails_iff (sqrt : Q -> Q) (s : PID) :
  relay_phase s -> controlType s <> AMIGOF_PI ->
  nLookBack s < to_byte (inputCount s + 1) ->
  let post := snd (autoTune sqrt s) in
  state post = AUTOTUNE_FAILED <->
  AUTOTUNE_MAX_WAIT < usub (lastTime s) (get 0 (lastPeakTime post) 0) \/
  20 <= peakCount post.
Proof.
  intros Hr Hc Hf post. unfold post, autoTune. clear post.
  rewrite at_start_running
    by (destruct Hr as [H|H]; rewrite H; discriminate).
  destruct (at_relay s (myInput s)) as [s1 b] eqn:E1.
  destruct (at_relay_frame _ _ _ _ E1 Hr) as [R1 [R2 [R3 [R4 R5]]]].
  destruct (at_output_frame s1) as [O1 [O2 [O3 [O4 O5]]]].
  set (s2 := at_output s1) in *.
  cbv [bind].
  rewrite at_fill_full by (rewrite O4, O5, R4, R5; exact Hf).
  cbv beta iota.
  set (s3 := s2 {{ inputCount := to_byte (inputCount s2 + 1) }}).
  destruct (state_upd_inputCount s2 (to_byte (inputCount s2 + 1)))
    as [U1 [U2 U3]]. fold s3 in U1, U2, U3.
  destruct (at_window_frame s3 (myInput s)) as [w [s4 [W1 [W2 [W3 W4]]]]].
  rewrite W1. cbv beta iota. destruct w as [[[iMax iMin] isMax] isMin].
  assert (Hr4 : relay_phase s4)
    by (unfold relay_phase; rewrite W2, U1, O1; exact R1).
  rewrite (at_steady_relay s4 iMax iMin Hr4). cbv beta iota.
  destruct (at_peaks s4 (myInput s) isMax isMin) as [s5 j] eqn:E5.
  destruct (at_peaks_frame _ _ _ _ _ _ E5) as [P1 [P2 P3]].
  destruct (at_converge_frame sqrt s5 j) as [a [s6 [C1 [C2 [C3 [C4 C5]]]]]].
  { rewrite P3, W4, U3, O3, R3. exact Hc. }
  rewrite C1. cbv beta iota.
  destruct (at_finish_frame sqrt (at_fail s6) a) as [d [s7 [F1 [F2 [F3 [F4 F5]]]]]].
  rewrite F1. simpl snd.
  destruct (at_fail_spec s6) as [A1 [A2 [A3 A4]]].
  rewrite F2, F4, F5, A3, A4, A1.
  assert (T : lastTime s6 = lastTime s)
    by (rewrite C3, P2, W3, U2, O2, R2; reflexivity).
  rewrite T.
  assert (N : state s6 <> AUTOTUNE_FAILED).
  { rewrite P1, W2, U1, O1 in C2.
    destruct C2 as [C2|C2]; rewrite C2; [destruct R1 as [R|R]; rewrite R|];
      discriminate. }
  tauto.
Qed.

Lemma autoTune_fails_iff_witness :
  relay_phase (failing_run {{ lastTime := 100000 }}) /\
  controlType (failing_run {{ lastTime := 100000 }}) <> AMIGOF_PI /\
  nLookBack (failing_run {{ lastTime := 100000 }})
    < to_byte (inputCount (failing_run {{ lastTime := 100000 }}) + 1) /\
  (state (snd (autoTune sqrt_id (failing_run {{ lastTime := 100000 }})))
     = AUTOTUNE_FAILED <->
   AUTOTUNE_MAX_WAIT < usub 100000 (get 0 (lastPeakTime
     (snd (autoTune sqrt_id (failing_run {{ lastTime := 100000 }})))) 0) \/
   20 <= peakCount (snd (autoTune sqrt_id (failing_run {{ lastTime := 100000 }})))).
Proof.
  assert (H1 : relay_phase (failing_run {{ lastTime := 100000 }}))
    by (left; reflexivity).
  assert (H2 : controlType (failing_run {{ lastTime := 100000 }}) <> AMIGOF_PI)
    by (vm_compute; discriminate).
  assert (H3 : nLookBack (failing_run {{ lastTime := 100000 }})
    < to_byte (inputCount (failing_run {{ lastTime := 100000 }}) + 1))
    by (vm_compute; reflexivity).
  refine (conj H1 (conj H2 (conj H3 _))).
  exact (autoTune_fails_iff sqrt_id _ H1 H2 H3).
Defined.

(** ** Gain synthesis *)

(** C8: when a relay-phase tuner step of a classical method ends the run in
    CONVERGED, it reports done and sets Kp = Ku / divisor KP, Ti = Pu /
    divisor TI and Td = 0 for a PI-only row, Pu / divisor TD otherwise,
    where Ku = 4 / pi * step / inducedAmplitude, inducedAmplitude is the
    sum of the three peak-to-peak differences of [lastPeaks[1..4]] divided
    by 6, Pu is the average of the spans [lastPeakTime[1] - lastPeakTime[3]]
    and [lastPeakTime[2] - lastPeakTime[4]] in seconds (their sum fitting in
    an unsigned long), and each divisor is the table byte times 0.05; the
    Ziegler-Nichols PID row gives the divisors 1.7, 2 and 8. *)
Theorem autoTune_converged_gains (sqrt : Q -> Q) (s : PID) :
  relay_phase s -> controlType s <> AMIGOF_PI ->
  let post := snd (autoTune sqrt s) in
  state post = AUTOTUNE_CONVERGED ->
  let tm := lastPeakTime post in
  let span13 := usub (get 0 tm 1) (get 0 tm 3) in
  let span24 := usub (get 0 tm 2) (get 0 tm 4) in
  span13 + span24 < ULONG_MOD ->
  let inducedAmplitude := (fst (fst (amplitude_loop (lastPeaks post))) / 6)%Q in
  let Ku := (4 / CONST_PI * workingOstep post / inducedAmplitude)%Q in
  let Pu := (inject_Z (span13 + span24) / 2 / 1000)%Q in
  let r := rule (controlType post) in
  fst (autoTune sqrt s) = true /\
  (Kp post == Ku / divisor r AUTOTUNE_KP_DIVISOR)%Q /\
  (Ti post == Pu / divisor r AUTOTUNE_TI_DIVISOR)%Q /\
  (Td post == if PI_controller r then 0
              else Pu / divisor r AUTOTUNE_TD_DIVISOR)%Q /\
  (divisor (rule ZIEGLER_NICHOLS_PID) AUTOTUNE_KP_DIVISOR == 17 # 10)%Q /\
  (divisor (rule ZIEGLER_NICHOLS_PID) AUTOTUNE_TI_DIVISOR == 2)%Q /\
  (divisor (rule ZIEGLER_NICHOLS_PID) AUTOTUNE_TD_DIVISOR == 8)%Q /\
  PI_controller (rule ZIEGLER_NICHOLS_PID) = false.
Proof.
  intros Hr Hc. cbv zeta.
  destruct (autoTune sqrt s) as [d post] eqn:EA. cbn [fst snd].
  intros Hconv Hspan.
  unfold autoTune in EA.
  rewrite at_start_running in EA
    by (destruct Hr as [H|H]; rewrite H; discriminate).
  destruct (at_relay s (myInput s)) as [s1 b] eqn:E1.
  destruct (at_relay_frame _ _ _ _ E1 Hr) as [R1 [R2 [R3 [R4 R5]]]].
  destruct (at_output_frame s1) as [O1 [O2 [O3 [O4 O5]]]].
  set (s2 := at_output s1) in *.
  cbv [bind] in EA.
  destruct (at_fill_frame s2 (myInput s))
    as [[s3 [L1 L2]] | [s3 [L1 [L2 [L3 L4]]]]];
    rewrite L1 in EA; cbv beta iota in EA.
  { injection EA as _ <-. exfalso. apply (relay_not_converged s3); [|exact Hconv].
    unfold relay_phase. rewrite L2, O1. exact R1. }
  destruct (at_window_frame s3 (myInput s)) as [w [s4 [W1 [W2 [W3 W4]]]]].
  rewrite W1 in EA. cbv beta iota in EA.
  destruct w as [[[iMax iMin] isMax] isMin].
  assert (Hr4 : relay_phase s4)
    by (unfold relay_phase; rewrite W2, L2, O1; exact R1).
  rewrite (at_steady_relay s4 iMax iMin Hr4) in EA. cbv beta iota in EA.
  destruct (at_peaks s4 (myInput s) isMax isMin) as [s5 j] eqn:E5.
  destruct (at_peaks_frame _ _ _ _ _ _ E5) as [P1 [P2 P3]].
  assert (Hc5 : controlType s5 <> AMIGOF_PI)
    by (rewrite P3, W4, L4, O3, R3; exact Hc).
  assert (Hs5 : state s5 <> AUTOTUNE_CONVERGED)
    by (apply relay_not_converged; unfold relay_phase; rewrite P1; exact Hr4).
  destruct (at_converge_frame sqrt s5 j Hc5) as [a [s6 [C1 _]]].
  rewrite C1 in EA. cbv beta iota in EA.
  destruct (at_finish_frame sqrt (at_fail s6) a) as [d' [s7 [F1 [F2 _]]]].
  rewrite F1 in EA. injection EA as <- <-.
  assert (K : at_fail s6 = s6)
    by (apply at_fail_keep; rewrite <- F2, Hconv; discriminate).
  rewrite K in F1, F2.
  rewrite Hconv in F2. symmetry in F2.
  destruct (at_converge_converged sqrt s5 s6 j a Hc5 Hs5 C1 F2) as [A6 S6].
  destruct (state_upd_converged s5) as [U1 [U2 [U3 [U4 U5]]]].
  rewrite <- S6 in U1, U2, U3, U4, U5.
  destruct (at_finish_converged sqrt s6 a F2 (ltac:(rewrite U5; exact Hc5)))
    as [t [G1 [G2 [G3 [G4 [G5 [G6 [G7 [G8 G9]]]]]]]]].
  rewrite F1 in G1. injection G1 as -> ->.
  rewrite G2, G3, G4, G6, G7, G8, G9. rewrite G8 in Hspan.
  rewrite U3, <- A6.
  rewrite Z.mod_small.
  2: { split; [|exact Hspan]. unfold usub.
       pose proof (Z.mod_pos_bound (get 0 (lastPeakTime s6) 1 - get 0 (lastPeakTime s6) 3) ULONG_MOD).
       pose proof (Z.mod_pos_bound (get 0 (lastPeakTime s6) 2 - get 0 (lastPeakTime s6) 4) ULONG_MOD).
       unfold ULONG_MOD in *. lia. }
  split; [reflexivity|].
  assert (H2000 : (/ 2000 == / 2 * / 1000)%Q) by reflexivity.
  unfold Qdiv.
  split; [ring|].
  split; [rewrite H2000; ring|].
  split; [destruct (PI_controller _); [reflexivity|rewrite H2000; ring]|].
  repeat split; reflexivity.
Qed.

Lemma autoTune_converged_gains_witness :
  let post := snd (autoTune sqrt_id converging_run) in
  let tm := lastPeakTime post in
  relay_phase converging_run /\ controlType converging_run <> AMIGOF_PI /\
  state post = AUTOTUNE_CONVERGED /\
  usub (get 0 tm 1) (get 0 tm 3) + usub (get 0 tm 2) (get 0 tm 4) < ULONG_MOD /\
  fst (autoTune sqrt_id converging_run) = true /\
  (Kp post == 4 / CONST_PI * workingOstep post
              / (fst (fst (amplitude_loop (lastPeaks post))) / 6)
              / divisor (rule (controlType post)) AUTOTUNE_KP_DIVISOR)%Q /\
  (Ti post == inject_Z (usub (get 0%Z tm 1) (get 0%Z tm 3)
                        + usub (get 0%Z tm 2) (get 0%Z tm 4)) / 2 / 1000
              / divisor (rule (controlType post)) AUTOTUNE_TI_DIVISOR)%Q.
Proof.
  assert (H1 : relay_phase converging_run) by (left; reflexivity).
  assert (H2 : controlType converging_run <> AMIGOF_PI)
    by (vm_compute; discriminate).
  assert (H3 : state (snd (autoTune sqrt_id converging_run)) = AUTOTUNE_CONVERGED)
    by (vm_compute; reflexivity).
  assert (H4 : let tm := lastPeakTime (snd (autoTune sqrt_id converging_run)) in
    usub (get 0 tm 1) (get 0 tm 3) + usub (get 0 tm 2) (get 0 tm 4) < ULONG_MOD)
    by (vm_compute; reflexivity).
  destruct (autoTune_converged_gains sqrt_id converging_run H1 H2 H3 H4)
    as [G1 [G2 [G3 _]]].
  exact (conj H1 (conj H2 (conj H3 (conj H4 (conj G1 (conj G2 G3)))))).
Defined.

(** ** Sample-time rescaling *)

Lemma inject_Z_nonzero (n : Z) : n <> 0 -> ~ (inject_Z n == 0)%Q.
Proof. intros H E. unfold Qeq in E. simpl in E. lia. Qed.

Lemma setSampleTime_step (s : PID) (n : Z) :
  0 < sampleTime s ->
  0 < sampleTime (setSampleTime s n) /\
  (ki (setSampleTime s n) / (inject_Z (sampleTime (setSampleTime s n)) * 0.001)
     == ki s / (inject_Z (sampleTime s) * 0.001))%Q /\
  (kd (setSampleTime s n) * (inject_Z (sampleTime (setSampleTime s n)) * 0.001)
     == kd s * (inject_Z (sampleTime s) * 0.001))%Q.
Proof.
  intros H. unfold setSampleTime.
  destruct (0 <? n) eqn:En.
  - apply Z.ltb_lt in En.
    pose proof (inject_Z_nonzero n ltac:(lia)).
    pose proof (inject_Z_nonzero (sampleTime s) ltac:(lia)).
    destruct s; simpl in *; unfold constant.
    split; [exact En|]. split; field; auto.
  - split; [exact H|]. split; reflexivity.
Qed.

(** C9: [setSampleTime(n)] does nothing for n <= 0; otherwise it multiplies
    ki by new/old, divides kd by it and stores n; along any sequence of
    calls, ki / intervalSeconds and kd * intervalSeconds keep their values
    (exactly, in rational arithmetic), the interval staying positive. *)
Theorem setSampleTime_preserves_continuous_gains (calls : list Z) (s : PID) :
  0 < sampleTime s ->
  (forall n, n <= 0 -> setSampleTime s n = s) /\
  (forall n, 0 < n ->
     let ratio := (inject_Z n / inject_Z (sampleTime s))%Q in
     ki (setSampleTime s n) = (ki s * ratio)%Q /\
     kd (setSampleTime s n) = (kd s / ratio)%Q /\
     sampleTime (setSampleTime s n) = n) /\
  (let s' := fold_left setSampleTime calls s in
   0 < sampleTime s' /\
   (ki s' / (inject_Z (sampleTime s') * 0.001)
      == ki s / (inject_Z (sampleTime s) * 0.001))%Q /\
   (kd s' * (inject_Z (sampleTime s') * 0.001)
      == kd s * (inject_Z (sampleTime s) * 0.001))%Q).
Proof.
  intros H. split; [|split].
  - intros n Hn. unfold setSampleTime.
    destruct (0 <? n) eqn:E; [apply Z.ltb_lt in E; lia | reflexivity].
  - intros n Hn. unfold setSampleTime.
    rewrite (proj2 (Z.ltb_lt _ _) Hn). destruct s; simpl; unfold constant. auto.
  - revert s H. induction calls as [|n calls IH]; intros s H; simpl.
    + split; [exact H|]. split; reflexivity.
    + destruct (setSampleTime_step s n H) as [H1 [H2 H3]].
      destruct (IH _ H1) as [H4 [H5 H6]].
      split; [exact H4|]. split.
      * rewrite H5. exact H2.
      * rewrite H6. exact H3.
Qed.

Lemma setSampleTime_preserves_continuous_gains_witness :
  0 < sampleTime booted /\
  let s' := fold_left setSampleTime [500; -3; 2000] booted in
  0 < sampleTime s' /\
  (ki s' / (inject_Z (sampleTime s') * 0.001)
     == ki booted / (inject_Z (sampleTime booted) * 0.001))%Q /\
  (kd s' * (inject_Z (sampleTime s') * 0.001)
     == kd booted * (inject_Z (sampleTime booted) * 0.001))%Q.
Proof.
  assert (H : 0 < sampleTime booted) by (vm_compute; reflexivity).
  split; [exact H|].
  exact (proj2 (proj2 (setSampleTime_preserves_continuous_gains
                         [500; -3; 2000] booted H))).
Defined.

(** ** Construction *)

Lemma setTunings_spec (s : PID) (Kp Ki Kd : Z) :
  0 <= Kp -> 0 <= Ki -> 0 <= Kd ->
  let T := (inject_Z (sampleTime s) * 0.001)%Q in
  let rev := controllerDirection s =? REVERSE in
  let r := setTunings s Kp Ki Kd in
  controllerDirection r = controllerDirection s /\
  sampleTime r = sampleTime s /\ mode r = mode s /\
  dispKp r = Kp /\ dispKi r = Ki /\ dispKd r = Kd /\
  kp r = (if rev then 0 - toDouble 3 Kp else toDouble 3 Kp)%Q /\
  ki r = (if rev then 0 - toDouble 3 Ki * T else toDouble 3 Ki * T)%Q /\
  kd r = (if rev then 0 - toDouble 3 Kd / T else toDouble 3 Kd / T)%Q.
Proof.
  intros H1 H2 H3. unfold setTunings.
  rewrite (proj2 (Z.ltb_ge Kp 0) H1), (proj2 (Z.ltb_ge Ki 0) H2),
    (proj2 (Z.ltb_ge Kd 0) H3). simpl orb. cbv zeta.
  destruct (controllerDirection s =? REVERSE) eqn:E;
    destruct s; simpl in *; unfold constant; rewrite E; repeat split.
Qed.

(** C10: the engine constructor runs [setTunings] before it stores its
    direction argument, so on storage whose direction field is not REVERSE
    (the zero-initialised [myPID] has DIRECT) a controller constructed with
    REVERSE keeps the non-negated gains kp = Kp, ki = Ki * T, kd = Kd / T;
    a later [setTunings] with the same gains negates them; the constructor
    of PID_v1.cpp, which sets the direction first, negates them at once. *)
Theorem PID_new_reverse_gains_not_negated (raw : PID) (millis Kp Ki Kd : Z) :
  controllerDirection raw <> REVERSE -> 0 <= Kp -> 0 <= Ki -> 0 <= Kd ->
  let T := (inject_Z DEFAULT_LOOP_SAMPLE_TIME * 0.001)%Q in
  let s := PID_new raw millis Kp Ki Kd REVERSE in
  controllerDirection s = REVERSE /\
  kp s = toDouble 3 Kp /\ ki s = (toDouble 3 Ki * T)%Q /\
  kd s = (toDouble 3 Kd / T)%Q /\
  (let s2 := setTunings s Kp Ki Kd in
   kp s2 = (0 - toDouble 3 Kp)%Q /\ ki s2 = (0 - toDouble 3 Ki * T)%Q /\
   kd s2 = (0 - toDouble 3 Kd / T)%Q) /\
  (let T1 := (inject_Z 100 * 0.001)%Q in
   let s3 := PID_v1.PID_new raw millis Kp Ki Kd REVERSE in
   controllerDirection s3 = REVERSE /\
   kp s3 = (0 - toDouble 3 Kp)%Q /\ ki s3 = (0 - toDouble 3 Ki * T1)%Q /\
   kd s3 = (0 - toDouble 3 Kd / T1)%Q).
Proof.
  intros Hd H1 H2 H3. cbv zeta.
  assert (E4 : (controllerDirection raw =? REVERSE) = false)
    by (apply Z.eqb_neq; exact Hd).
  (* the engine constructor *)
  set (s0 := raw {{ sampleTime := DEFAULT_LOOP_SAMPLE_TIME }}).
  destruct (setTunings_spec s0 Kp Ki Kd H1 H2 H3)
    as [D0 [S0 [_ [_ [_ [_ [G1 [G2 G3]]]]]]]].
  assert (C0 : controllerDirection s0 = controllerDirection raw)
    by (destruct raw; reflexivity).
  assert (T0 : sampleTime s0 = DEFAULT_LOOP_SAMPLE_TIME)
    by (destruct raw; reflexivity).
  rewrite C0, E4, T0 in *. cbv beta iota in G1, G2, G3.
  set (s1 := PID_new raw millis Kp Ki Kd REVERSE).
  assert (P : controllerDirection s1 = REVERSE /\
              sampleTime s1 = sampleTime (setTunings s0 Kp Ki Kd) /\
              kp s1 = kp (setTunings s0 Kp Ki Kd) /\
              ki s1 = ki (setTunings s0 Kp Ki Kd) /\
              kd s1 = kd (setTunings s0 Kp Ki Kd)).
  { unfold s1, PID_new. fold s0.
    destruct (setTunings s0 Kp Ki Kd); repeat split. }
  destruct P as [P1 [P2 [P3 [P4 P5]]]]. rewrite S0 in P2.
  destruct (setTunings_spec s1 Kp Ki Kd H1 H2 H3)
    as [_ [_ [_ [_ [_ [_ [L1 [L2 L3]]]]]]]].
  rewrite P1 in L1, L2, L3. rewrite P2 in L2, L3. cbv beta iota in L1, L2, L3.
  (* the constructor of PID_v1.cpp *)
  set (t0 := (setOutputLimits raw 0 255) {{ sampleTime := 100 }}).
  set (t1 := PID_v1.setControllerDirection t0 REVERSE).
  assert (Q : controllerDirection t1 = REVERSE /\ sampleTime t1 = 100).
  { unfold t1, PID_v1.setControllerDirection.
    destruct ((mode t0 =? AUTOMATIC) && negb (REVERSE =? controllerDirection t0));
      unfold t0, setOutputLimits;
      destruct (Qleb 255 0); try destruct (mode raw =? AUTOMATIC);
      destruct raw; split; reflexivity. }
  destruct Q as [Q1 Q2].
  destruct (setTunings_spec t1 Kp Ki Kd H1 H2 H3)
    as [D2 [S2 [_ [_ [_ [_ [M1 [M2 M3]]]]]]]].
  rewrite Q1 in M1, M2, M3. rewrite Q2 in M2, M3. cbv beta iota in M1, M2, M3.
  set (s3 := PID_v1.PID_new raw millis Kp Ki Kd REVERSE).
  assert (P' : controllerDirection s3 = REVERSE /\
               kp s3 = kp (setTunings t1 Kp Ki Kd) /\
               ki s3 = ki (setTunings t1 Kp Ki Kd) /\
               kd s3 = kd (setTunings t1 Kp Ki Kd)).
  { unfold s3, PID_v1.PID_new. fold t0. fold t1. rewrite <- Q1, <- D2.
    clear - Q1. destruct (setTunings t1 Kp Ki Kd); repeat split. }
  destruct P' as [R1 [R2 [R3 R4]]].
  rewrite P3, P4, P5, R2, R3, R4, G1, G2, G3, M1, M2, M3.
  repeat split; assumption.
Qed.

Lemma PID_new_reverse_gains_not_negated_witness :
  controllerDirection zeroPID <> REVERSE /\ 0 <= 1500 /\ 0 <= 300 /\ 0 <= 50 /\
  let T := (inject_Z DEFAULT_LOOP_SAMPLE_TIME * 0.001)%Q in
  let s := PID_new zeroPID 0 1500 300 50 REVERSE in
  controllerDirection s = REVERSE /\
  kp s = toDouble 3 1500 /\ ki s = (toDouble 3 300 * T)%Q /\
  kd s = (toDouble 3 50 / T)%Q /\
  (let s2 := setTunings s 1500 300 50 in
   kp s2 = (0 - toDouble 3 1500)%Q /\ ki s2 = (0 - toDouble 3 300 * T)%Q /\
   kd s2 = (0 - toDouble 3 50 / T)%Q) /\
  (let T1 := (inject_Z 100 * 0.001)%Q in
   let s3 := PID_v1.PID_new zeroPID 0 1500 300 50 REVERSE in
   controllerDirection s3 = REVERSE /\
   kp s3 = (0 - toDouble 3 1500)%Q /\ ki s3 = (0 - toDouble 3 300 * T1)%Q /\
   kd s3 = (0 - toDouble 3 50 / T1)%Q).
Proof.
  split; [vm_compute; discriminate|].
  split; [lia|]. split; [lia|]. split; [lia|].
  apply PID_new_reverse_gains_not_negated; [vm_compute; discriminate | lia..].
Defined.

(** ** Further properties of the engine and of the profile runner *)

Lemma upd_output_iTerm (t : PID) (a b : Q) :
  let u := t {{ myOutput := a; iTerm := b }} in
  myOutput u = a /\ iTerm u = b /\ outMin u = outMin t /\
  outMax u = outMax t /\ mode u = mode t.
Proof. destruct t; repeat split. Qed.

(** [PID::setOutputLimits] ignores a range with [Max <= Min]; otherwise it
    stores the limits, keeps the mode, and in AUTOMATIC mode clamps the
    output and the integral term into [[Min, Max]], while in any other mode
    it leaves both as they are. *)
Theorem setOutputLimits_spec (s : PID) (Min Max : Q) :
  let r := setOutputLimits s Min Max in
  ((Max <= Min)%Q -> r = s) /\
  ((Min < Max)%Q ->
   outMin r = Min /\ outMax r = Max /\ mode r = mode s /\
   (mode s = AUTOMATIC ->
    (Min <= myOutput r <= Max)%Q /\ (Min <= iTerm r <= Max)%Q) /\
   (mode s <> AUTOMATIC -> myOutput r = myOutput s /\ iTerm r = iTerm s)).
Proof.
  cbv zeta. unfold setOutputLimits, Qleb. split.
  - intros H. apply Qle_bool_iff in H. rewrite H. reflexivity.
  - intros H. destruct (Qle_bool Max Min) eqn:E.
    { apply Qle_bool_iff in E. lra. }
    set (t := s {{ outMin := Min; outMax := Max }}).
    assert (T : outMin t = Min /\ outMax t = Max /\ mode t = mode s /\
                myOutput t = myOutput s /\ iTerm t = iTerm s)
      by (destruct s; repeat split).
    destruct T as [T1 [T2 [T3 [T4 T5]]]].
    rewrite T3. destruct (mode s =? AUTOMATIC) eqn:M.
    + apply Z.eqb_eq in M.
      assert (B : forall x, (Min <= limit t x <= Max)%Q).
      { intros x. rewrite <- T1, <- T2. apply limit_bounds. rewrite T1, T2. lra. }
      destruct (B (myOutput t)) as [B1 B2]. destruct (B (iTerm t)) as [B3 B4].
      destruct (upd_output_iTerm t (limit t (myOutput t)) (limit t (iTerm t)))
        as [U1 [U2 [U3 [U4 U5]]]].
      rewrite U1, U2, U3, U4, U5, T1, T2, T3.
      repeat split; try assumption; intros; contradiction.
    + apply Z.eqb_neq in M. repeat split; try assumption; try contradiction.
Qed.

Lemma compute_not_tuning (sqrt : Q -> Q) (now : Z) (s : PID) :
  isTuning s = false ->
  compute sqrt now s =
    if usub now (lastTime s) <? sampleTime s mod ULONG_MOD then s
    else if mode s =? MANUAL then s {{ lastTime := now }}
    else
      let input := myInput s in
      let error := (mySetpoint s - input)%Q in
      let iT := limit s (iTerm s + ki s * error)%Q in
      let dInput := (input - lastInput s)%Q in
      s {{ iTerm := iT;
           myOutput := limit s (kp s * error + iT - kd s * dInput)%Q;
           lastInput := input; lastTime := now }}.
Proof.
  intros Ht. unfold compute.
  destruct (_ <? _); [reflexivity|].
  destruct s; simpl in *; subst; reflexivity.
Qed.

Lemma law_fields (s : PID) (a b c : Q) (d : Z) :
  let u := s {{ iTerm := a; myOutput := b; lastInput := c; lastTime := d }} in
  iTerm u = a /\ myOutput u = b /\ outMin u = outMin s /\ outMax u = outMax s.
Proof. destruct s; repeat split. Qed.

Lemma lastTime_fields (s : PID) (d : Z) :
  let u := s {{ lastTime := d }} in
  iTerm u = iTerm s /\ myOutput u = myOutput s /\ outMin u = outMin s /\
  outMax u = outMax s.
Proof. destruct s; repeat split. Qed.

(** Outside a tuning run and with [outMin <= outMax], [PID::compute] keeps
    the limits, keeps an output that lies within them inside them, and
    whenever it runs the PID law (mode not MANUAL, sample interval elapsed)
    it leaves both the output and the integral term within
    [[outMin, outMax]]. *)
Theorem compute_output_in_limits (sqrt : Q -> Q) (now : Z) (s : PID) :
  isTuning s = false -> (outMin s <= outMax s)%Q ->
  let r := compute sqrt now s in
  outMin r = outMin s /\ outMax r = outMax s /\
  ((outMin s <= myOutput s <= outMax s)%Q ->
   (outMin s <= myOutput r <= outMax s)%Q) /\
  (mode s <> MANUAL -> sampleTime s mod ULONG_MOD <= usub now (lastTime s) ->
   (outMin s <= myOutput r <= outMax s)%Q /\
   (outMin s <= iTerm r <= outMax s)%Q).
Proof.
  intros Ht Hle. cbv zeta. rewrite (compute_not_tuning sqrt now s Ht).
  destruct (usub now (lastTime s) <? sampleTime s mod ULONG_MOD) eqn:E.
  { apply Z.ltb_lt in E. repeat split; try tauto; intros; lia. }
  destruct (mode s =? MANUAL) eqn:M.
  { apply Z.eqb_eq in M.
    destruct (lastTime_fields s now) as [L1 [L2 [L3 L4]]].
    rewrite L2, L3, L4. repeat split; try tauto; intros; contradiction. }
  cbv zeta.
  match goal with
  | |- context [s {{ iTerm := ?a; myOutput := ?b; lastInput := ?c; lastTime := ?d }}] =>
      destruct (law_fields s a b c d) as [F1 [F2 [F3 F4]]];
      rewrite F1, F2, F3, F4
  end.
  pose proof (limit_bounds s (kp s * (mySetpoint s - myInput s) +
      limit s (iTerm s + ki s * (mySetpoint s - myInput s)) -
      kd s * (myInput s - lastInput s))%Q Hle) as B1.
  pose proof (limit_bounds s (iTerm s + ki s * (mySetpoint s - myInput s))%Q Hle)
    as B2.
  repeat split; try tauto.
Qed.

(** The [compute] of PID_v1.cpp leaves the whole state unchanged in MANUAL
    mode; in any other mode and outside a tuning run it computes the same
    state as the engine's [PID::compute]. *)
Theorem PID_v1_compute_agrees (sqrt : Q -> Q) (now : Z) (s : PID) :
  isTuning s = false ->
  (mode s = MANUAL -> PID_v1.compute now s = s) /\
  (mode s <> MANUAL -> PID_v1.compute now s = compute sqrt now s).
Proof.
  intros Ht. unfold PID_v1.compute. split.
  - intros H. rewrite H, Z.eqb_refl. reflexivity.
  - intros H. rewrite (compute_not_tuning sqrt now s Ht).
    rewrite (proj2 (Z.eqb_neq _ _) H).
    destruct (usub now (lastTime s) <? sampleTime s mod ULONG_MOD) eqn:E.
    + apply Z.ltb_lt in E. rewrite (proj2 (Z.leb_gt _ _) E). reflexivity.
    + apply Z.ltb_ge in E. rewrite (proj2 (Z.leb_le _ _) E).
      destruct s; reflexivity.
Qed.

Lemma toDouble3_nonneg (K : Z) : 0 <= K -> (0 <= toDouble 3 K)%Q.
Proof. intros H. unfold toDouble, Qle. simpl. lia. Qed.

(** [PID::setTunings] (with a positive sample time) does nothing when one
    of the gains is negative; otherwise it stores the display gains, and the
    working gains kp, ki, kd are all <= 0 when the stored direction is
    REVERSE and all >= 0 when it is not. *)
Theorem setTunings_gain_signs (s : PID) (Kp Ki Kd : Z) :
  0 < sampleTime s ->
  ((Kp < 0 \/ Ki < 0 \/ Kd < 0) -> setTunings s Kp Ki Kd = s) /\
  (0 <= Kp -> 0 <= Ki -> 0 <= Kd ->
   let r := setTunings s Kp Ki Kd in
   dispKp r = Kp /\ dispKi r = Ki /\ dispKd r = Kd /\
   (controllerDirection s = REVERSE ->
      (kp r <= 0)%Q /\ (ki r <= 0)%Q /\ (kd r <= 0)%Q) /\
   (controllerDirection s <> REVERSE ->
      (0 <= kp r)%Q /\ (0 <= ki r)%Q /\ (0 <= kd r)%Q)).
Proof.
  intros Hs. split.
  - intros H. unfold setTunings.
    destruct H as [H | [H | H]]; apply Z.ltb_lt in H; rewrite H;
      rewrite ?orb_true_r; reflexivity.
  - intros H1 H2 H3. cbv zeta.
    destruct (setTunings_spec s Kp Ki Kd H1 H2 H3)
      as [_ [_ [_ [D1 [D2 [D3 [G1 [G2 G3]]]]]]]].
    cbv zeta in G1, G2, G3. rewrite G1, G2, G3.
    assert (T : (0 < inject_Z (sampleTime s) * 0.001)%Q).
    { apply Qmult_lt_0_compat; [|reflexivity].
      unfold Qlt; simpl; lia. }
    pose proof (toDouble3_nonneg Kp H1) as P1.
    pose proof (toDouble3_nonneg Ki H2) as P2.
    pose proof (toDouble3_nonneg Kd H3) as P3.
    assert (A2 : (0 <= toDouble 3 Ki * (inject_Z (sampleTime s) * 0.001))%Q).
    { apply Qmult_le_0_compat; lra. }
    assert (A3 : (0 <= toDouble 3 Kd / (inject_Z (sampleTime s) * 0.001))%Q).
    { apply Qmult_le_0_compat; [lra|]. apply Qinv_le_0_compat; lra. }
    refine (conj D1 (conj D2 (conj D3 (conj _ _)))); intros Hd.
    + rewrite Hd, Z.eqb_refl. refine (conj _ (conj _ _)); lra.
    + apply Z.eqb_neq in Hd. rewrite Hd. refine (conj _ (conj _ _)); lra.
Qed.

(** In AUTOMATIC mode, switching [PID::setControllerDirection] to a new
    direction stores it and negates kp, ki and kd; switching back to the
    old direction restores the direction, the mode and (as rationals) the
    three gains. *)
Theorem setControllerDirection_round_trip (s : PID) (d : Z) :
  mode s = AUTOMATIC -> d <> controllerDirection s ->
  let t := setControllerDirection s d in
  let r := setControllerDirection t (controllerDirection s) in
  controllerDirection t = d /\
  (kp t == - kp s)%Q /\ (ki t == - ki s)%Q /\ (kd t == - kd s)%Q /\
  controllerDirection r = controllerDirection s /\
  (kp r == kp s)%Q /\ (ki r == ki s)%Q /\ (kd r == kd s)%Q /\ mode r = mode s.
Proof.
  intros Hm Hd. cbv zeta. unfold setControllerDirection.
  destruct s; simpl in Hm, Hd |- *. rewrite Hm, Z.eqb_refl.
  rewrite (proj2 (Z.eqb_neq _ _) Hd). simpl.
  unfold constant.
  match goal with |- context [negb (?c =? d)] =>
    assert (E : (c =? d) = false) by (apply Z.eqb_neq; congruence) end.
  rewrite E. simpl. repeat split; ring.
Qed.

Lemma Z_range_check (P : Z -> bool) (lo : Z) (n : nat) :
  forallb P (map (fun k => lo + Z.of_nat k) (seq 0 n)) = true ->
  forall v, lo <= v < lo + Z.of_nat n -> P v = true.
Proof.
  intros H v Hv. rewrite forallb_forall in H. apply H.
  apply in_map_iff. exists (Z.to_nat (v - lo)). split; [lia|].
  apply in_seq. lia.
Qed.

Lemma nLookBack_setAtune (s : PID) (v : Z) :
  nLookBack (setAtuneLookBackSec s v) =
    let value := if v <? 1 then 1 else v in
    let n := to_byte (Z.quot (wrap16 (value * 1000)) (sampleTime s)) in
    if 100 <? n then 100 else n.
Proof. destruct s; reflexivity. Qed.

Lemma sampleTime_setAtune (s : PID) (v : Z) :
  sampleTime (setAtuneLookBackSec s v) = sampleTime s.
Proof. destruct s; reflexivity. Qed.

(** [PID::setAtuneLookBackSec] (with a positive sample time, the divisor)
    always stores a look-back of 0 to 100 samples, within the 101 entries
    of [lastInputs], whatever the requested number of seconds. *)
Theorem setAtuneLookBackSec_bounds (s : PID) (v : Z) :
  0 < sampleTime s -> 0 <= nLookBack (setAtuneLookBackSec s v) <= 100.
Proof.
  intros _. rewrite nLookBack_setAtune. cbv zeta. unfold to_byte.
  match goal with |- context [?x mod 256] =>
    pose proof (Z.mod_pos_bound x 256 ltac:(lia)) end.
  destruct (100 <? _) eqn:E; [lia|]. apply Z.ltb_ge in E. lia.
Qed.

(** With the sample time 1000 ms, [PID::setAtuneLookBackSec] followed by
    [PID::getAtuneLookBackSec] gives back a value from 1 to 32 s, and 1 for
    a value below 1; from 33 to 64 s the 16-bit product [value * 1000]
    overflows, the look-back is capped at 100 samples and the getter
    (whose own 16-bit product overflows) reports -31 s; at 65 s the
    look-back becomes 0 samples. *)
Theorem setAtuneLookBackSec_seconds (s : PID) (v : Z) :
  sampleTime s = 1000 ->
  let r := setAtuneLookBackSec s v in
  (v < 1 -> nLookBack r = 1 /\ getAtuneLookBackSec r = 1) /\
  (1 <= v <= 32 -> nLookBack r = v /\ getAtuneLookBackSec r = v) /\
  (33 <= v <= 64 -> nLookBack r = 100 /\ getAtuneLookBackSec r = -31) /\
  (v = 65 -> nLookBack r = 0 /\ getAtuneLookBackSec r = 0).
Proof.
  intros Hs. cbv zeta. unfold getAtuneLookBackSec.
  rewrite nLookBack_setAtune, sampleTime_setAtune, Hs. cbv zeta.
  refine (conj _ (conj _ (conj _ _))); intros Hv; split.
  - rewrite (proj2 (Z.ltb_lt v 1) Hv). reflexivity.
  - rewrite (proj2 (Z.ltb_lt v 1) Hv). reflexivity.
  - rewrite (proj2 (Z.ltb_ge v 1) (proj1 Hv)).
    pose proof (Z_range_check (fun v => (if 100 <? to_byte (Z.quot (wrap16 (v * 1000)) 1000)
        then 100 else to_byte (Z.quot (wrap16 (v * 1000)) 1000)) =? v) 1 32
        ltac:(vm_compute; reflexivity) v ltac:(lia)) as P.
    apply Z.eqb_eq in P. exact P.
  - rewrite (proj2 (Z.ltb_ge v 1) (proj1 Hv)).
    pose proof (Z_range_check (fun v => Z.quot (wrap16 ((if 100 <? to_byte (Z.quot (wrap16 (v * 1000)) 1000)
        then 100 else to_byte (Z.quot (wrap16 (v * 1000)) 1000)) * 1000)) 1000 =? v) 1 32
        ltac:(vm_compute; reflexivity) v ltac:(lia)) as P.
    apply Z.eqb_eq in P. exact P.
  - rewrite (proj2 (Z.ltb_ge v 1) ltac:(lia)).
    pose proof (Z_range_check (fun v => (if 100 <? to_byte (Z.quot (wrap16 (v * 1000)) 1000)
        then 100 else to_byte (Z.quot (wrap16 (v * 1000)) 1000)) =? 100) 33 32
        ltac:(vm_compute; reflexivity) v ltac:(lia)) as P.
    apply Z.eqb_eq in P. exact P.
  - rewrite (proj2 (Z.ltb_ge v 1) ltac:(lia)).
    pose proof (Z_range_check (fun v => (if 100 <? to_byte (Z.quot (wrap16 (v * 1000)) 1000)
        then 100 else to_byte (Z.quot (wrap16 (v * 1000)) 1000)) =? 100) 33 32
        ltac:(vm_compute; reflexivity) v ltac:(lia)) as P.
    apply Z.eqb_eq in P. rewrite P. reflexivity.
  - subst v. reflexivity.
  - subst v. reflexivity.
Qed.

(** [PID::startAutoTune] puts the engine into MANUAL mode with a tuning run
    in progress in state AUTOTUNE_OFF; [PID::stopAutoTune] right after it
    restores the mode and the manual output of before the run, writes that
    manual output to the output, ends the run, and leaves the gains, the
    direction, the limits and the integral term unchanged. *)
Theorem startAutoTune_stopAutoTune (s : PID) (m st nb lb : Z) :
  let t := startAutoTune s m st nb lb in
  let r := stopAutoTune t in
  mode t = MANUAL /\ isTuning t = true /\ state t = AUTOTUNE_OFF /\
  mode r = mode s /\ manualOutput r = manualOutput s /\
  myOutput r = toDouble 1 (manualOutput s) /\
  isTuning r = false /\ state r = AUTOTUNE_OFF /\
  kp r = kp s /\ ki r = ki s /\ kd r = kd s /\
  controllerDirection r = controllerDirection s /\
  outMin r = outMin s /\ outMax r = outMax s /\ iTerm r = iTerm s.
Proof. destruct s; repeat split. Qed.

Lemma at_fill_keeps (s : PID) (v : Q) :
  keeps_output s (flow_pid (at_fill s v)) /\
  state (flow_pid (at_fill s v)) = state s /\
  forall t, at_fill s v <> Ret true t.
Proof.
  unfold at_fill. destruct (_ <=? _); (split; [|split]);
    try (destruct s; repeat split); intros t E; discriminate.
Qed.

Lemma at_window_keeps (s : PID) (v : Q) :
  exists w t, at_window s v = Go w t /\ keeps_output s t /\ state t = state s.
Proof.
  unfold at_window. destruct (scan _ _ _ _ _) as [[a iMax] iMin].
  eexists _, _. split; [reflexivity|]. destruct s; repeat split.
Qed.

Lemma at_steady_not_done (s : PID) (a b : Z) (t : PID) :
  at_steady s a b <> Ret true t.
Proof. unfold at_steady. split_ifs; discriminate. Qed.

Lemma at_peaks_keeps (s : PID) (v : Q) (a b : bool) :
  keeps_output s (fst (at_peaks s v a b)) /\
  state (fst (at_peaks s v a b)) = state s.
Proof.
  unfold at_peaks. destruct a, b; cbv beta iota; split_ifs; destruct s; repeat split.
Qed.

Lemma at_converge_keeps (sqrt : Q -> Q) (s : PID) (j : bool) :
  keeps_output s (flow_pid (at_converge sqrt s j)) /\
  (state (flow_pid (at_converge sqrt s j)) = state s \/
   state (flow_pid (at_converge sqrt s j)) = AUTOTUNE_CONVERGED) /\
  forall t, at_converge sqrt s j <> Ret true t.
Proof.
  unfold at_converge. destruct (j && _);
    [|split; [destruct s; repeat split|split; [left; reflexivity|discriminate]]].
  destruct (amplitude_loop (lastPeaks s)) as [[amp mx] mn].
  split_ifs; (split; [|split]); try (intros t E; discriminate);
    destruct s; repeat split; auto.
Qed.

Lemma at_fail_keeps (s : PID) :
  keeps_output s (at_fail s) /\
  (state (at_fail s) = state s \/ state (at_fail s) = AUTOTUNE_FAILED).
Proof. unfold at_fail. split_ifs; destruct s; repeat split; auto. Qed.

Lemma at_finish_cases (sqrt : Q -> Q) (s : PID) (a : Q) :
  (at_finish sqrt s a = Ret false s /\
   Z.land (state s) (Z.lor AUTOTUNE_CONVERGED AUTOTUNE_FAILED) = 0) \/
  (exists t, at_finish sqrt s a = Ret true t /\
   Z.land (state t) (Z.lor AUTOTUNE_CONVERGED AUTOTUNE_FAILED) <> 0 /\
   myOutput t = outputStart t).
Proof.
  unfold at_finish.
  destruct (Z.land (state s) (Z.lor AUTOTUNE_CONVERGED AUTOTUNE_FAILED) =? 0) eqn:E.
  - left. split; [reflexivity|]. apply Z.eqb_eq in E. exact E.
  - right. apply Z.eqb_neq in E. split_ifs; eexists; (split; [reflexivity|]);
      destruct s; simpl in *; unfold constant; auto.
Qed.

(** Whenever a step of [PID::autoTune] reports the run done, the tuner is
    in the state AUTOTUNE_CONVERGED or AUTOTUNE_FAILED, and the output has
    been set back to the output [outputStart] the run started from. *)
Theorem autoTune_done_restores_output (sqrt : Q -> Q) (s t : PID) :
  autoTune sqrt s = (true, t) ->
  Z.land (state t) (Z.lor AUTOTUNE_CONVERGED AUTOTUNE_FAILED) <> 0 /\
  myOutput t = outputStart t.
Proof.
  unfold autoTune. cbv zeta.
  destruct (at_relay _ _) as [s1 j1].
  destruct (at_fill_keeps (at_output s1) (myInput (at_start s))) as [_ [_ NF]].
  destruct (at_fill _ _) as [d u | [] u] eqn:F; cbn [bind].
  { intros E. injection E as -> ->. exfalso. exact (NF _ eq_refl). }
  destruct (at_window_keeps u (myInput (at_start s))) as [w [u2 [W _]]].
  rewrite W. cbn [bind]. destruct w as [[[iMax iMin] isMax] isMin].
  destruct (at_steady u2 iMax iMin) as [d3 u3 | [] u3] eqn:S; cbn [bind].
  { intros E. injection E as -> ->. exfalso. exact (at_steady_not_done _ _ _ _ S). }
  destruct (at_peaks u3 _ isMax isMin) as [u4 j4].
  destruct (at_converge_keeps sqrt u4 j4) as [_ [_ NC]].
  destruct (at_converge sqrt u4 j4) as [d5 u5 | a u5] eqn:C; cbn [bind].
  { intros E. injection E as -> ->. exfalso. exact (NC _ eq_refl). }
  destruct (at_finish_cases sqrt (at_fail u5) a) as [[R _] | [t' [R [H1 H2]]]];
    rewrite R; intros E; [discriminate E|].
  injection E as <-. split; assumption.
Qed.

Lemma relay_output_keep (s t : PID) :
  relay_output s -> keeps_output s t -> state t = state s -> relay_output t.
Proof.
  intros H [K1 [K2 K3]] S. unfold relay_output in *.
  rewrite S, K1, K2, K3. exact H.
Qed.

Lemma at_output_relay (s : PID) : relay_phase s -> relay_output (at_output s).
Proof.
  intros [H|H]; unfold at_output, is_state_in, relay_output; rewrite H; simpl;
    destruct s; simpl in *; subst; [left|right]; split; reflexivity.
Qed.

Lemma relay_not_off (s : PID) : relay_phase s -> state s <> AUTOTUNE_OFF.
Proof. intros [H|H]; rewrite H; discriminate. Qed.

Lemma at_converge_ret_state (sqrt : Q -> Q) (s t : PID) (j d : bool) :
  at_converge sqrt s j = Ret d t -> state t = state s.
Proof.
  unfold at_converge. destruct (j && _); [|discriminate].
  destruct (amplitude_loop (lastPeaks s)) as [[amp mx] mn].
  split_ifs; intros E; try discriminate; injection E as <- <-;
    destruct s; reflexivity.
Qed.

(** A step of [PID::autoTune] taken in the relay phase that does not end
    the run leaves the tuner in the relay phase, with the relay output
    [outputStart + workingOstep] in the step up and
    [outputStart - workingOstep] in the step down. *)
Theorem autoTune_relay_output (sqrt : Q -> Q) (s t : PID) :
  relay_phase s -> autoTune sqrt s = (false, t) -> relay_output t.
Proof.
  intros Hr. unfold autoTune. cbv zeta.
  rewrite (at_start_running s (relay_not_off s Hr)).
  destruct (at_relay s (myInput s)) as [s1 j1] eqn:Rl.
  destruct (at_relay_frame _ _ _ _ Rl Hr) as [Hr1 _].
  pose proof (at_output_relay s1 Hr1) as P0.
  destruct (at_output_frame s1) as [O1 _].
  destruct (at_fill_keeps (at_output s1) (myInput s)) as [K1 [S1 _]].
  destruct (at_fill _ _) as [d u | [] u] eqn:F; cbn [bind]; simpl in K1, S1.
  { intros E. injection E as -> ->. exact (relay_output_keep _ _ P0 K1 S1). }
  pose proof (relay_output_keep _ _ P0 K1 S1) as P1.
  destruct (at_window_keeps u (myInput s)) as [w [u2 [W [K2 S2]]]].
  pose proof (relay_output_keep _ _ P1 K2 S2) as P2.
  rewrite W. cbn [bind]. destruct w as [[[iMax iMin] isMax] isMin].
  assert (Hr2 : relay_phase u2).
  { unfold relay_phase. rewrite S2, S1, O1. exact Hr1. }
  rewrite (at_steady_relay u2 iMax iMin Hr2). cbn [bind].
  destruct (at_peaks_keeps u2 (myInput s) isMax isMin) as [K3 S3].
  destruct (at_peaks u2 _ isMax isMin) as [u4 j4]. simpl in K3, S3.
  pose proof (relay_output_keep _ _ P2 K3 S3) as P3.
  destruct (at_converge_keeps sqrt u4 j4) as [K4 [S4 _]].
  destruct (at_converge sqrt u4 j4) as [d5 u5 | a u5] eqn:C; cbn [bind];
    simpl in K4, S4.
  { intros E. injection E as -> ->.
    exact (relay_output_keep _ _ P3 K4 (at_converge_ret_state _ _ _ _ _ C)). }
  destruct (at_fail_keeps u5) as [K5 S5].
  destruct (at_finish_cases sqrt (at_fail u5) a) as [[R L] | [t' [R _]]];
    rewrite R; intros E; [|discriminate E].
  injection E as <-.
  destruct S5 as [S5 | S5]; [|rewrite S5 in L; discriminate L].
  destruct S4 as [S4 | S4]; [|rewrite S5, S4 in L; discriminate L].
  apply (relay_output_keep u5); [|exact K5|exact S5].
  exact (relay_output_keep _ _ P3 K4 S4).
Qed.

Lemma setTunings_frame (s : PID) (a b c : Z) :
  let r := setTunings s a b c in
  PGain r = PGain s /\ controllerDirection r = controllerDirection s /\
  ATuneModeRemember r = ATuneModeRemember s /\
  manualOutputRemember r = manualOutputRemember s.
Proof. unfold setTunings. split_ifs; destruct s; repeat split. Qed.

Lemma stopAutoTune_fields (s : PID) :
  let r := stopAutoTune s in
  PGain r = PGain s /\ controllerDirection r = controllerDirection s /\
  mode r = ATuneModeRemember s /\ isTuning r = false /\
  state r = AUTOTUNE_OFF /\ manualOutput r = manualOutputRemember s /\
  myOutput r = toDouble 1 (manualOutputRemember s).
Proof. destruct s; repeat split. Qed.

Lemma flip_fields (s : PID) (a b c d : Z) :
  let t := s {{ PGain := a; IGain := b; DGain := c; controllerDirection := d }} in
  PGain t = a /\ controllerDirection t = d /\
  ATuneModeRemember t = ATuneModeRemember s /\
  manualOutputRemember t = manualOutputRemember s.
Proof. destruct s; repeat split. Qed.

(** [PID::completeAutoTune] (on a direction DIRECT or REVERSE) stores the
    magnitude of the rounded tuned Kp as [PGain] and flips the controller
    direction exactly when that Kp is negative; it then ends the run
    through [stopAutoTune], so the mode is the one remembered at the start
    of the run (not AUTOMATIC) and the output is the remembered manual
    output. *)
Theorem completeAutoTune_spec (s : PID) :
  controllerDirection s = DIRECT \/ controllerDirection s = REVERSE ->
  let P := makeDecimal 3 (getAtuneKp s) in
  let r := completeAutoTune s in
  PGain r = Z.abs P /\
  (controllerDirection r = controllerDirection s <-> 0 <= P) /\
  (controllerDirection r = DIRECT \/ controllerDirection r = REVERSE) /\
  mode r = ATuneModeRemember s /\ isTuning r = false /\
  state r = AUTOTUNE_OFF /\ manualOutput r = manualOutputRemember s /\
  myOutput r = toDouble 1 (manualOutputRemember s).
Proof.
  intros Hd. cbv zeta. unfold completeAutoTune. cbv zeta.
  remember ((s {{ PGain := makeDecimal 3 (getAtuneKp s);
                  IGain := makeDecimal 3 (getAtuneKi s);
                  DGain := makeDecimal 3 (getAtuneKd s) }}) {{ mode := AUTOMATIC }})
    as s1 eqn:Hs1.
  assert (F : PGain s1 = makeDecimal 3 (getAtuneKp s) /\
              controllerDirection s1 = controllerDirection s /\
              ATuneModeRemember s1 = ATuneModeRemember s /\
              manualOutputRemember s1 = manualOutputRemember s)
    by (subst s1; destruct s; repeat split).
  destruct F as [F1 [F2 [F3 F4]]].
  destruct (PGain s1 <? 0) eqn:E.
  - apply Z.ltb_lt in E. rewrite F1 in E.
    destruct (controllerDirection s1 =? DIRECT) eqn:D;
    match goal with
    | |- context [s1 {{ PGain := ?a; IGain := ?b; DGain := ?c;
                        controllerDirection := ?d }}] =>
        destruct (flip_fields s1 a b c d) as [G1 [G2 [G3 G4]]];
        set (s2 := s1 {{ PGain := a; IGain := b; DGain := c;
                         controllerDirection := d }}) in *
    end;
    destruct (setTunings_frame s2 (PGain s2) (IGain s2) (DGain s2)) as [T1 [T2 [T3 T4]]];
    destruct (stopAutoTune_fields (setTunings s2 (PGain s2) (IGain s2) (DGain s2)))
      as [U1 [U2 [U3 [U4 [U5 [U6 U7]]]]]];
    rewrite U1, U2, U3, U4, U5, U6, U7, T1, T2, T3, T4, G1, G2, G3, G4, F1, F3, F4;
    rewrite F2 in D; (split; [lia|]); apply Z.eqb_eq in D || apply Z.eqb_neq in D;
    (split; [split; [intros C; destruct Hd as [Hd|Hd]; rewrite Hd in *;
                     unfold DIRECT, REVERSE in *; congruence | lia]|]);
    (split; [unfold DIRECT, REVERSE; auto|]); repeat split.
  - destruct (setTunings_frame s1 (PGain s1) (IGain s1) (DGain s1)) as [T1 [T2 [T3 T4]]].
    destruct (stopAutoTune_fields (setTunings s1 (PGain s1) (IGain s1) (DGain s1)))
      as [U1 [U2 [U3 [U4 [U5 [U6 U7]]]]]].
    rewrite U1, U2, U3, U4, U5, U6, U7, T1, T2, T3, T4, F1, F2, F3, F4.
    apply Z.ltb_ge in E. rewrite F1 in E.
    split; [lia|]. split; [split; [intros; lia|reflexivity]|].
    split; [exact Hd|]. repeat split.
Qed.

Lemma startCurrentProfileStep_step (gp : Z -> Z -> Z * Z * Z) (g : Globals) :
  currentProfileStep (fst (startCurrentProfileStep gp g)) = currentProfileStep g.
Proof.
  unfold startCurrentProfileStep. destruct (gp _ _) as [[ty du] en].
  split_ifs; destruct g; reflexivity.
Qed.

Lemma profileStepDone_step (gp : Z -> Z -> Z * Z * Z) (g : Globals) :
  currentProfileStep (profileStepDone gp g) =
    if currentProfileStep g <? NR_STEPS then currentProfileStep g + 1
    else currentProfileStep g.
Proof.
  unfold profileStepDone. destruct (currentProfileStep g <? NR_STEPS); [|destruct g; reflexivity].
  pose proof (startCurrentProfileStep_step gp
    (g {{ currentProfileStep := currentProfileStep g + 1 }})) as H.
  destruct (startCurrentProfileStep gp _) as [h b]. simpl in H.
  destruct b; [|unfold stopProfile]; destruct h; simpl in *; rewrite H; destruct g; reflexivity.
Qed.

Lemma profileLoopIteration_shape (gp : Z -> Z -> Z * Z * Z) (g : Globals) :
  exists (b : bool) g0, currentProfileStep g0 = currentProfileStep g /\
  profileLoopIteration gp g = if b then g0 else profileStepDone gp g0.
Proof.
  unfold profileLoopIteration. cbv zeta. split_ifs;
  first [ exists true; eexists; split; [|reflexivity]; destruct g; reflexivity
        | exists false; eexists; split; [|reflexivity]; destruct g; reflexivity ].
Qed.

(** [profileLoopIteration] moves the step index [currentProfileStep] by at
    most one step and never past [NR_STEPS] = 16. *)
Theorem profileLoopIteration_step_bound (gp : Z -> Z -> Z * Z * Z) (g : Globals) :
  currentProfileStep g <= NR_STEPS ->
  let c := currentProfileStep (profileLoopIteration gp g) in
  (c = currentProfileStep g \/ c = currentProfileStep g + 1) /\ c <= NR_STEPS.
Proof.
  intros H. cbv zeta.
  destruct (profileLoopIteration_shape gp g) as [b [g0 [E R]]]. rewrite R.
  destruct b.
  - rewrite E. lia.
  - rewrite profileStepDone_step, E.
    destruct (currentProfileStep g <? NR_STEPS) eqn:L;
      [apply Z.ltb_lt in L|apply Z.ltb_ge in L]; lia.
Qed.

(** During a ramp step, while the (signed) time left is positive and at
    most the step duration, [profileLoopIteration] sets the set point to
    [target - (target - initial) * timeLeft / duration], a value between
    the initial and the target set point, and stays on the same step. *)
Theorem profileLoopIteration_ramp (gp : Z -> Z -> Z * Z * Z) (g : Globals) :
  let ps := profileState g in
  let left := wrap32 (stepEndMillis ps - now g) in
  stepType ps = STEP_RAMP_TO_SETPOINT -> 0 < left <= stepDuration ps ->
  let g' := profileLoopIteration gp g in
  let a := toDouble 1 (initialSetpoint ps) in
  let b := toDouble 1 (targetSetpoint ps) in
  currentProfileStep g' = currentProfileStep g /\
  runningProfile g' = runningProfile g /\
  (activeSetPoint g' == b - (b - a) * (inject_Z left / inject_Z (stepDuration ps)))%Q /\
  ((a <= b)%Q -> (a <= activeSetPoint g' <= b)%Q) /\
  ((b <= a)%Q -> (b <= activeSetPoint g' <= a)%Q).
Proof.
  cbv zeta. intros Ht Hl.
  unfold profileLoopIteration. cbv zeta. rewrite Ht, Z.eqb_refl.
  rewrite (proj2 (Z.leb_gt _ _) (proj1 Hl)).
  set (L := wrap32 (stepEndMillis (profileState g) - now g)) in *.
  set (D := stepDuration (profileState g)) in *.
  set (a := toDouble 1 (initialSetpoint (profileState g))).
  set (b := toDouble 1 (targetSetpoint (profileState g))).
  assert (F : forall v, currentProfileStep (g {{ activeSetPoint := v }}) = currentProfileStep g /\
                        runningProfile (g {{ activeSetPoint := v }}) = runningProfile g /\
                        activeSetPoint (g {{ activeSetPoint := v }}) = v)
    by (intros v; destruct g; repeat split).
  match goal with |- context [g {{ activeSetPoint := ?v }}] =>
    destruct (F v) as [F1 [F2 F3]]; rewrite F1, F2, F3 end.
  assert (HD : (0 < inject_Z D)%Q) by (unfold Qlt; simpl; lia).
  assert (R0 : (0 < inject_Z L / inject_Z D)%Q).
  { apply Qlt_shift_div_l; [exact HD|]. rewrite Qmult_0_l. unfold Qlt; simpl; lia. }
  assert (R1 : (inject_Z L / inject_Z D <= 1)%Q).
  { apply Qle_shift_div_r; [exact HD|]. rewrite Qmult_1_l.
    unfold Qle; simpl; lia. }
  assert (E : ((b - (b - a) * inject_Z L / inject_Z D) ==
               b - (b - a) * (inject_Z L / inject_Z D))%Q)
    by (unfold Qdiv; ring).
  split; [reflexivity|]. split; [reflexivity|]. split; [exact E|].
  rewrite E. set (r := (inject_Z L / inject_Z D)%Q) in *.
  split; intros Hab.
  - assert (P : (0 <= (b - a) * r <= b - a)%Q).
    { split.
      - apply Qmult_le_0_compat; lra.
      - rewrite <- (Qmult_1_r (b - a)) at 2.
        apply Qmult_le_compat_nonneg; lra. }
    lra.
  - assert (P : (0 <= (a - b) * r <= a - b)%Q).
    { split.
      - apply Qmult_le_0_compat; lra.
      - rewrite <- (Qmult_1_r (a - b)) at 2.
        apply Qmult_le_compat_nonneg; lra. }
    assert (N : ((b - a) * r == - ((a - b) * r))%Q) by ring.
    rewrite N. lra.
Qed.

(** [startProfile] starts at step 0 and leaves the profile running exactly
    when step 0 is not STEP_INVALID and its type (the buzzer flag masked
    off) is a ramp, a soak, a jump or a wait; a HOLD_UNTIL_CANCEL or an
    unknown type stops the profile at once. *)
Theorem startProfile_running (gp : Z -> Z -> Z * Z * Z) (g : Globals) :
  let type := fst (fst (gp (activeProfileIndex g) 0)) in
  let g' := startProfile gp g in
  currentProfileStep g' = 0 /\
  (runningProfile g' = true <->
   type <> STEP_INVALID /\ Z.land type STEP_TYPE_MASK <= STEP_WAIT_TO_CROSS).
Proof.
  cbv zeta. destruct g as [n sp inp idx c run ps].
  unfold startProfile, startCurrentProfileStep. cbn [activeProfileIndex currentProfileStep].
  destruct ps. simpl. unfold constant. destruct (gp idx 0) as [[ty du] en]. simpl.
  assert (NN : 0 <= Z.land ty STEP_TYPE_MASK) by (apply Z.land_nonneg; right; discriminate).
  unfold STEP_INVALID, STEP_TYPE_MASK, STEP_RAMP_TO_SETPOINT, STEP_SOAK_AT_VALUE,
    STEP_JUMP_TO_SETPOINT, STEP_WAIT_TO_CROSS in *.
  split_ifs; simpl;
  repeat match goal with
         | H : (_ =? _) = true |- _ => apply Z.eqb_eq in H
         | H : (_ =? _) = false |- _ => apply Z.eqb_neq in H
         end; (split; [reflexivity|]); split; intros; try lia; try discriminate.
Qed.

(** When the time of a ramp step has run out, [profileLoopIteration] goes
    to the next step; if that step is a valid ramp, the profile keeps
    running and the new ramp starts from the previous target. *)
Theorem profileLoopIteration_ramp_end (gp : Z -> Z -> Z * Z * Z) (g : Globals) :
  let ps := profileState g in
  let target := toDouble 1 (targetSetpoint ps) in
  stepType ps = STEP_RAMP_TO_SETPOINT ->
  wrap32 (stepEndMillis ps - now g) <= 0 ->
  currentProfileStep g < NR_STEPS ->
  let type := fst (fst (gp (activeProfileIndex g) (currentProfileStep g + 1))) in
  let g' := profileLoopIteration gp g in
  currentProfileStep g' = currentProfileStep g + 1 /\
  (type <> STEP_INVALID -> Z.land type STEP_TYPE_MASK = STEP_RAMP_TO_SETPOINT ->
   runningProfile g' = runningProfile g /\
   initialSetpoint (profileState g') = makeDecimal 1 target).
Proof.
  cbv zeta. intros Ht Hl Hc.
  unfold profileLoopIteration. cbv zeta. rewrite Ht, Z.eqb_refl.
  rewrite (proj2 (Z.leb_le _ _) Hl).
  destruct g as [n sp inp idx c run ps]. simpl in *.
  unfold profileStepDone. simpl. rewrite (proj2 (Z.ltb_lt _ _) Hc).
  unfold startCurrentProfileStep. destruct ps. simpl in *. unfold constant.
  destruct (gp idx (c + 1)) as [[ty du] en]. simpl.
  destruct (ty =? STEP_INVALID) eqn:I.
  { apply Z.eqb_eq in I. split; [reflexivity|]. intros N. contradiction. }
  apply Z.eqb_neq in I.
  split.
  - split_ifs; reflexivity.
  - intros _ R. rewrite R, Z.eqb_refl. simpl. split; reflexivity.
Qed.

Lemma Qsq_nonneg (y : Q) : (0 <= y * y)%Q.
Proof.
  destruct (Qlt_le_dec y 0) as [H|H].
  - setoid_replace (y * y)%Q with (- y * - y)%Q by ring.
    apply Qmult_le_0_compat; lra.
  - apply Qmult_le_0_compat; lra.
Qed.

Lemma fastArcTan_bound (x : Q) : (- (95 # 100) <= fastArcTan x <= 95 # 100)%Q.
Proof.
  unfold fastArcTan.
  assert (D : (0 < 1 + 0.28125 * (x * x))%Q) by (pose proof (Qsq_nonneg x); lra).
  assert (S1 : (0 <= (x + (320 # 171)) * (x + (320 # 171)))%Q) by apply Qsq_nonneg.
  assert (S2 : (0 <= (x - (320 # 171)) * (x - (320 # 171)))%Q) by apply Qsq_nonneg.
  split.
  - apply Qle_shift_div_l; [exact D|]. nra.
  - apply Qle_shift_div_r; [exact D|]. nra.
Qed.

Lemma fastArcTan_nonneg_bound (x : Q) :
  (0 <= x)%Q -> (0 <= fastArcTan x <= 95 # 100)%Q.
Proof.
  intros Hx. pose proof (fastArcTan_bound x) as [_ B].
  split; [|exact B].
  unfold fastArcTan.
  assert (D : (0 < 1 + 0.28125 * (x * x))%Q) by (pose proof (Qsq_nonneg x); lra).
  apply Qle_shift_div_l; [exact D|]. lra.
Qed.

(** [PID::calculatePhaseLag], for a positive induced amplitude [A], a
    noise band [b >= 0] with [2 b <> A] (so that [1 - ratio^2] is not 0
    when the arctangent branch is taken) and a square root that is
    positive on positive arguments, returns either pi/2 or a value in
    [pi - 0.95, pi]: the ratio [2 b / A] lies in [0, 1) on the arctangent
    branch, and [fastArcTan x = x / (1 + 0.28125 x^2)] stays in
    [0, 0.95] for [x >= 0]. *)
Theorem calculatePhaseLag_range (sqrt : Q -> Q) (s : PID) (A : Q) :
  (0 < A)%Q -> (0 <= workingNoiseBand s)%Q ->
  ~ (2 * workingNoiseBand s == A)%Q ->
  (forall x, 0 < x -> 0 < sqrt x)%Q ->
  let p := calculatePhaseLag sqrt s A in
  p = CONST_PI_DIV_2 \/ (CONST_PI - (95 # 100) <= p <= CONST_PI)%Q.
Proof.
  intros HA Hb Hne Hsq. cbv zeta. unfold calculatePhaseLag.
  set (r := (2 * workingNoiseBand s / A)%Q).
  destruct (Qltb 1 r) eqn:L; [left; reflexivity|right].
  unfold Qltb in L. apply negb_false_iff in L.
  apply Qle_bool_iff in L.
  assert (R0 : (0 <= r)%Q).
  { unfold r. apply Qle_shift_div_l; [exact HA|]. lra. }
  assert (R1 : (r < 1)%Q).
  { destruct (Qle_lt_or_eq _ _ L) as [H|H]; [exact H|].
    exfalso. apply Hne. unfold r in H.
    assert (E : (2 * workingNoiseBand s == 2 * workingNoiseBand s / A * A)%Q)
      by (field; intros Z; rewrite Z in HA; discriminate HA).
    rewrite E, H. ring. }
  assert (P : (0 < 1 - r * r)%Q) by nra.
  pose proof (Hsq _ P) as S.
  assert (X : (0 <= r / sqrt (1 - r * r))%Q)
    by (apply Qle_shift_div_l; [exact S|]; lra).
  pose proof (fastArcTan_nonneg_bound _ X). lra.
Qed.

(** ** Witnesses of the further properties *)

Lemma compute_output_in_limits_witness :
  isTuning (setMode booted AUTOMATIC) = false /\
  (outMin (setMode booted AUTOMATIC) <= outMax (setMode booted AUTOMATIC))%Q /\
  let s := setMode booted AUTOMATIC in
  let r := compute sqrt_id 6000 s in
  outMin r = outMin s /\ outMax r = outMax s /\
  ((outMin s <= myOutput s <= outMax s)%Q ->
   (outMin s <= myOutput r <= outMax s)%Q) /\
  (mode s <> MANUAL -> sampleTime s mod ULONG_MOD <= usub 6000 (lastTime s) ->
   (outMin s <= myOutput r <= outMax s)%Q /\
   (outMin s <= iTerm r <= outMax s)%Q).
Proof.
  refine (conj eq_refl (conj _ _)).
  - vm_compute. discriminate.
  - apply compute_output_in_limits; [reflexivity|]. vm_compute. discriminate.
Defined.

Lemma PID_v1_compute_agrees_witness :
  isTuning (setMode booted AUTOMATIC) = false /\
  (mode (setMode booted AUTOMATIC) = MANUAL ->
   PID_v1.compute 6000 (setMode booted AUTOMATIC) = setMode booted AUTOMATIC) /\
  (mode (setMode booted AUTOMATIC) <> MANUAL ->
   PID_v1.compute 6000 (setMode booted AUTOMATIC) =
   compute sqrt_id 6000 (setMode booted AUTOMATIC)).
Proof.
  refine (conj eq_refl _).
  apply PID_v1_compute_agrees. reflexivity.
Defined.

Lemma setTunings_gain_signs_witness :
  0 < sampleTime booted /\
  ((1000 < 0 \/ 200 < 0 \/ 0 < 0) -> setTunings booted 1000 200 0 = booted) /\
  (0 <= 1000 -> 0 <= 200 -> 0 <= 0 ->
   let r := setTunings booted 1000 200 0 in
   dispKp r = 1000 /\ dispKi r = 200 /\ dispKd r = 0 /\
   (controllerDirection booted = REVERSE ->
      (kp r <= 0)%Q /\ (ki r <= 0)%Q /\ (kd r <= 0)%Q) /\
   (controllerDirection booted <> REVERSE ->
      (0 <= kp r)%Q /\ (0 <= ki r)%Q /\ (0 <= kd r)%Q)).
Proof.
  split; [vm_compute; reflexivity|].
  apply setTunings_gain_signs. vm_compute. reflexivity.
Defined.

Lemma setControllerDirection_round_trip_witness :
  mode (setMode booted AUTOMATIC) = AUTOMATIC /\
  REVERSE <> controllerDirection (setMode booted AUTOMATIC) /\
  let s := setMode booted AUTOMATIC in
  let t := setControllerDirection s REVERSE in
  let r := setControllerDirection t (controllerDirection s) in
  controllerDirection t = REVERSE /\
  (kp t == - kp s)%Q /\ (ki t == - ki s)%Q /\ (kd t == - kd s)%Q /\
  controllerDirection r = controllerDirection s /\
  (kp r == kp s)%Q /\ (ki r == ki s)%Q /\ (kd r == kd s)%Q /\ mode r = mode s.
Proof.
  refine (conj eq_refl (conj _ _)).
  - vm_compute. discriminate.
  - apply setControllerDirection_round_trip; [reflexivity|]. vm_compute. discriminate.
Defined.

Lemma setAtuneLookBackSec_bounds_witness :
  0 < sampleTime booted /\ 0 <= nLookBack (setAtuneLookBackSec booted 1000) <= 100.
Proof.
  split; [vm_compute; reflexivity|].
  apply setAtuneLookBackSec_bounds. vm_compute. reflexivity.
Defined.

Lemma setAtuneLookBackSec_seconds_witness :
  sampleTime booted = 1000 /\
  let r := setAtuneLookBackSec booted 40 in
  (40 < 1 -> nLookBack r = 1 /\ getAtuneLookBackSec r = 1) /\
  (1 <= 40 <= 32 -> nLookBack r = 40 /\ getAtuneLookBackSec r = 40) /\
  (33 <= 40 <= 64 -> nLookBack r = 100 /\ getAtuneLookBackSec r = -31) /\
  (40 = 65 -> nLookBack r = 0 /\ getAtuneLookBackSec r = 0).
Proof.
  split; [vm_compute; reflexivity|].
  apply setAtuneLookBackSec_seconds. vm_compute. reflexivity.
Defined.

Lemma autoTune_done_restores_output_witness :
  autoTune sqrt_id failing_run = (true, snd (autoTune sqrt_id failing_run)) /\
  Z.land (state (snd (autoTune sqrt_id failing_run)))
    (Z.lor AUTOTUNE_CONVERGED AUTOTUNE_FAILED) <> 0 /\
  myOutput (snd (autoTune sqrt_id failing_run)) =
    outputStart (snd (autoTune sqrt_id failing_run)).
Proof.
  assert (H : autoTune sqrt_id failing_run =
              (true, snd (autoTune sqrt_id failing_run)))
    by (vm_compute; reflexivity).
  exact (conj H (autoTune_done_restores_output sqrt_id _ _ H)).
Defined.

Lemma autoTune_relay_output_witness :
  relay_phase (failing_run {{ peakCount := 3 }}) /\
  autoTune sqrt_id (failing_run {{ peakCount := 3 }}) =
    (false, snd (autoTune sqrt_id (failing_run {{ peakCount := 3 }}))) /\
  relay_output (snd (autoTune sqrt_id (failing_run {{ peakCount := 3 }}))).
Proof.
  assert (H1 : relay_phase (failing_run {{ peakCount := 3 }}))
    by (left; vm_compute; reflexivity).
  assert (H2 : autoTune sqrt_id (failing_run {{ peakCount := 3 }}) =
    (false, snd (autoTune sqrt_id (failing_run {{ peakCount := 3 }}))))
    by (vm_compute; reflexivity).
  exact (conj H1 (conj H2 (autoTune_relay_output sqrt_id _ _ H1 H2))).
Defined.

Lemma completeAutoTune_spec_witness :
  (controllerDirection failing_run = DIRECT \/
   controllerDirection failing_run = REVERSE) /\
  let P := makeDecimal 3 (getAtuneKp failing_run) in
  let r := completeAutoTune failing_run in
  PGain r = Z.abs P /\
  (controllerDirection r = controllerDirection failing_run <-> 0 <= P) /\
  (controllerDirection r = DIRECT \/ controllerDirection r = REVERSE) /\
  mode r = ATuneModeRemember failing_run /\ isTuning r = false /\
  state r = AUTOTUNE_OFF /\ manualOutput r = manualOutputRemember failing_run /\
  myOutput r = toDouble 1 (manualOutputRemember failing_run).
Proof.
  assert (H : controllerDirection failing_run = DIRECT \/
              controllerDirection failing_run = REVERSE)
    by (left; vm_compute; reflexivity).
  exact (conj H (completeAutoTune_spec failing_run H)).
Defined.

Lemma profileLoopIteration_step_bound_witness :
  currentProfileStep ramp_over <= NR_STEPS /\
  let c := currentProfileStep (profileLoopIteration ramp_profile ramp_over) in
  (c = currentProfileStep ramp_over \/ c = currentProfileStep ramp_over + 1) /\
  c <= NR_STEPS.
Proof.
  assert (H : currentProfileStep ramp_over <= NR_STEPS)
    by (vm_compute; discriminate).
  exact (conj H (profileLoopIteration_step_bound ramp_profile ramp_over H)).
Defined.

Lemma profileLoopIteration_ramp_witness :
  let ps := profileState ramping in
  let left := wrap32 (stepEndMillis ps - now ramping) in
  stepType ps = STEP_RAMP_TO_SETPOINT /\ 0 < left <= stepDuration ps /\
  let g' := profileLoopIteration ramp_profile ramping in
  let a := toDouble 1 (initialSetpoint ps) in
  let b := toDouble 1 (targetSetpoint ps) in
  currentProfileStep g' = currentProfileStep ramping /\
  runningProfile g' = runningProfile ramping /\
  (activeSetPoint g' == b - (b - a) * (inject_Z left / inject_Z (stepDuration ps)))%Q /\
  ((a <= b)%Q -> (a <= activeSetPoint g' <= b)%Q) /\
  ((b <= a)%Q -> (b <= activeSetPoint g' <= a)%Q).
Proof.
  assert (H1 : stepType (profileState ramping) = STEP_RAMP_TO_SETPOINT)
    by reflexivity.
  assert (H2 : 0 < wrap32 (stepEndMillis (profileState ramping) - now ramping)
                 <= stepDuration (profileState ramping))
    by (vm_compute; split; [reflexivity | discriminate]).
  exact (conj H1 (conj H2 (profileLoopIteration_ramp ramp_profile ramping H1 H2))).
Defined.

Lemma profileLoopIteration_ramp_end_witness :
  let ps := profileState ramp_over in
  let target := toDouble 1 (targetSetpoint ps) in
  stepType ps = STEP_RAMP_TO_SETPOINT /\
  wrap32 (stepEndMillis ps - now ramp_over) <= 0 /\
  currentProfileStep ramp_over < NR_STEPS /\
  let type := fst (fst (ramp_profile (activeProfileIndex ramp_over)
                                     (currentProfileStep ramp_over + 1))) in
  let g' := profileLoopIteration ramp_profile ramp_over in
  currentProfileStep g' = currentProfileStep ramp_over + 1 /\
  (type <> STEP_INVALID -> Z.land type STEP_TYPE_MASK = STEP_RAMP_TO_SETPOINT ->
   runningProfile g' = runningProfile ramp_over /\
   initialSetpoint (profileState g') = makeDecimal 1 target).
Proof.
  assert (H1 : stepType (profileState ramp_over) = STEP_RAMP_TO_SETPOINT)
    by reflexivity.
  assert (H2 : wrap32 (stepEndMillis (profileState ramp_over) - now ramp_over) <= 0)
    by (vm_compute; discriminate).
  assert (H3 : currentProfileStep ramp_over < NR_STEPS) by (vm_compute; reflexivity).
  exact (conj H1 (conj H2 (conj H3
    (profileLoopIteration_ramp_end ramp_profile ramp_over H1 H2 H3)))).
Defined.

Lemma calculatePhaseLag_range_witness :
  let s := failing_run {{ workingNoiseBand := 1 # 2 }} in
  (0 < 3)%Q /\ (0 <= workingNoiseBand s)%Q /\
  ~ (2 * workingNoiseBand s == 3)%Q /\
  (forall x, 0 < x -> 0 < sqrt_id x)%Q /\
  (calculatePhaseLag sqrt_id s 3 = CONST_PI_DIV_2 \/
   (CONST_PI - (95 # 100) <= calculatePhaseLag sqrt_id s 3 <= CONST_PI)%Q).
Proof.
  cbv zeta.
  assert (H1 : (0 < 3)%Q) by reflexivity.
  assert (H2 : (0 <= workingNoiseBand (failing_run {{ workingNoiseBand := 1 # 2 }}))%Q)
    by (vm_compute; discriminate).
  assert (H3 : ~ (2 * workingNoiseBand (failing_run {{ workingNoiseBand := 1 # 2 }})
                  == 3)%Q)
    by (vm_compute; discriminate).
  assert (H4 : (forall x, 0 < x -> 0 < sqrt_id x)%Q) by (intros x Hx; exact Hx).
  exact (conj H1 (conj H2 (conj H3 (conj H4
    (calculatePhaseLag_range sqrt_id _ 3 H1 H2 H3 H4))))).
Defined.
